(** * facefusion/filesystem.py: a shallow embedding and its properties

    The module is a thin layer over the host file system.  The embedding
    has three layers:

    - [PyStr] and [posixpath]: the string methods and the pure path
      functions of the Python library the module calls (POSIX flavour);
    - [Host] and [Lib]: the world the module runs in (a file system and
      the trace of calls into the library, of log entries and of sleeps)
      and the primitives of [os], [shutil], [glob], [logger] and [time];
    - [filesystem]: the functions of [filesystem.py], one definition per
      [def], in a state-and-exception monad over the world.

    A Python [str] is a [string] whose characters are the code points
    below 256; on these [str.lower] works character by character. The
    library is that of CPython 3.11 on Linux: [os.makedirs],
    [shutil.copy] and [shutil.rmtree] are embedded from [os.py] and
    [shutil.py], over the system calls they make. *)

From Stdlib Require Import ZArith Ascii String List Lia Bool.
From stdpp Require Import base option list gmap strings sorting pretty.

Local Open Scope Z_scope.

(** ** Python string methods *)

Module PyStr.

Definition len (s : string) : Z := Z.of_nat (String.length s).

Fixpoint take (n : nat) (s : string) : string :=
  match n, s with
  | S n', String a s' => String a (take n' s')
  | _, _ => ""
  end.

Fixpoint drop (n : nat) (s : string) : string :=
  match n, s with
  | S n', String _ s' => drop n' s'
  | _, _ => s
  end.

(** A slice bound [i] of [s[i:j]]: negative bounds count from the end,
    and every bound is clamped to [0 .. len s]. *)
Definition bound (s : string) (i : Z) : nat :=
  if i <? 0 then Z.to_nat (Z.max 0 (i + len s))
  else Z.to_nat (Z.min i (len s)).

(** [s[i:j]], a missing bound written [None]. *)
Definition slice (s : string) (i j : option Z) : string :=
  let lo := from_option (bound s) 0%nat i in
  let hi := from_option (bound s) (String.length s) j in
  take (hi - lo) (drop lo s).

(** [s.rfind(c)] for a one-character [c]: the highest index of [c] in
    [s], or [-1]. *)
Fixpoint rfind (s : string) (c : ascii) : Z :=
  match s with
  | "" => -1
  | String a s' =>
      let r := rfind s' c in
      if 0 <=? r then r + 1
      else if Ascii.eqb a c then 0 else -1
  end.

(** [c.lower()] on the code points below 256: the upper-case letters are
    A-Z and the Latin-1 range U+00C0-U+00DE without the multiplication
    sign U+00D7; each is 32 below its lower-case form. *)
Definition lower_char (c : ascii) : ascii :=
  let n := N_of_ascii c in
  if ((65 <=? n) && (n <=? 90) ||
      (192 <=? n) && (n <=? 222) && negb (n =? 215))%N
  then ascii_of_N (n + 32) else c.

Fixpoint lower (s : string) : string :=
  match s with
  | "" => ""
  | String a s' => String (lower_char a) (lower s')
  end.

Fixpoint mem (c : ascii) (chars : string) : bool :=
  match chars with
  | "" => false
  | String a chars' => Ascii.eqb a c || mem c chars'
  end.

(** [s.lstrip(chars)]: drop every leading character that is in [chars]. *)
Fixpoint lstrip (s chars : string) : string :=
  match s with
  | "" => ""
  | String a s' => if mem a chars then lstrip s' chars else s
  end.

(** [s.rstrip(chars)]. *)
Fixpoint rstrip (s chars : string) : string :=
  match s with
  | "" => ""
  | String a s' =>
      match rstrip s' chars with
      | "" => if mem a chars then "" else String a ""
      | r => String a r
      end
  end.

Definition startswith (s p : string) : bool := String.prefix p s.

(** [s.startswith((p1, p2, ...))]: a tuple of prefixes. *)
Definition startswith_any (s : string) (ps : list string) : bool :=
  existsb (startswith s) ps.

Fixpoint endswith_char (s : string) (c : ascii) : bool :=
  match s with
  | "" => false
  | String a "" => Ascii.eqb a c
  | String _ s' => endswith_char s' c
  end.

(** [s == c * len(s)]: every character of [s] is [c]. *)
Fixpoint all_char (s : string) (c : ascii) : bool :=
  match s with
  | "" => true
  | String a s' => Ascii.eqb a c && all_char s' c
  end.

(** [bool(s)]. *)
Definition truthy (s : string) : bool :=
  match s with "" => false | _ => true end.

(** [s.split(c)]: the pieces between the occurrences of [c]. *)
Fixpoint split (s : string) (c : ascii) : list string :=
  match s with
  | "" => [""]
  | String a s' =>
      if Ascii.eqb a c then "" :: split s' c
      else match split s' c with
           | piece :: pieces => String a piece :: pieces
           | [] => [String a ""]
           end
  end.

(** [sep.join(pieces)]. *)
Fixpoint join_with (sep : string) (pieces : list string) : string :=
  match pieces with
  | [] => ""
  | piece :: rest =>
      match rest with
      | [] => piece
      | _ => piece +:+ sep +:+ join_with sep rest
      end
  end.

(** [s * n]. *)
Fixpoint times (s : string) (n : nat) : string :=
  match n with
  | O => ""
  | S n' => s +:+ times s n'
  end.

End PyStr.

(** ** posixpath and genericpath *)

Module posixpath.
Import PyStr.

Definition sep : ascii := "/"%char.
Definition extsep : ascii := "."%char.

(** [basename(p)]: [i = p.rfind(sep) + 1; return p[i:]]. *)
Definition basename (p : string) : string :=
  let i := rfind p sep + 1 in
  slice p (Some i) None.

(** [dirname(p)]: the head up to the last separator, its trailing
    separators stripped unless it consists of separators only. *)
Definition dirname (p : string) : string :=
  let i := rfind p sep + 1 in
  let head := slice p None (Some i) in
  if truthy head && negb (all_char head sep)
  then rstrip head (String sep "") else head.

(** The loop of [genericpath._splitext] that skips the leading dots of
    the file name: [true] when a character other than [extsep] stands
    between [filenameIndex] and [dotIndex]; [n] is the distance left. *)
Fixpoint has_stem (p : string) (filenameIndex : Z) (n : nat) : bool :=
  match n with
  | O => false
  | S n' =>
      if negb (String.eqb (slice p (Some filenameIndex) (Some (filenameIndex + 1)))
                          (String extsep ""))
      then true
      else has_stem p (filenameIndex + 1) n'
  end.

(** [splitext(p)] is [genericpath._splitext(p, sep, None, extsep)]. *)
Definition splitext (p : string) : string * string :=
  let sepIndex := rfind p sep in
  let dotIndex := rfind p extsep in
  if (sepIndex <? dotIndex) &&
     has_stem p (sepIndex + 1) (Z.to_nat (dotIndex - (sepIndex + 1)))
  then (slice p None (Some dotIndex), slice p (Some dotIndex) None)
  else (p, slice p None (Some 0)).

(** [join(a, b)] for two arguments. *)
Definition join (a b : string) : string :=
  if startswith b (String sep "") then b
  else if negb (truthy a) || endswith_char a sep then a +:+ b
  else a +:+ String sep "" +:+ b.

(** [isabs(s)]. *)
Definition isabs (s : string) : bool := startswith s (String sep "").

(** One turn of the loop of [normpath]: an empty component and [.] are
    skipped; [..] drops the component before it, unless there is none to
    drop in a relative path or the one before is itself [..]; at the root
    [..] is dropped. *)
Definition normpath_step (initial_slashes : Z) (new_comps : list string)
    (comp : string) : list string :=
  if bool_decide (comp = "" \/ comp = ".") then new_comps
  else if negb (bool_decide (comp = ".."))
          || ((initial_slashes =? 0) && bool_decide (new_comps = []))
          || (negb (bool_decide (new_comps = []))
              && bool_decide (last new_comps = Some ".."))
       then new_comps ++ [comp]
       else if bool_decide (new_comps = []) then new_comps
            else removelast new_comps.

(** [normpath(path)]. Two leading slashes are kept, three or more are
    one. *)
Definition normpath (path : string) : string :=
  if negb (truthy path) then "."
  else
    let initial_slashes : Z :=
      if startswith path "/"
      then if startswith path "//" && negb (startswith path "///") then 2 else 1
      else 0 in
    let comps := split path sep in
    let new_comps := fold_left (normpath_step initial_slashes) comps [] in
    let joined := join_with "/" new_comps in
    let path' :=
      if initial_slashes =? 0 then joined
      else times "/" (Z.to_nat initial_slashes) +:+ joined in
    if truthy path' then path' else ".".

(** [split(p)]: head and tail, the tail being everything after the last
    separator; the head loses its trailing separators unless it consists
    of separators only. *)
Definition split (p : string) : string * string :=
  let i := rfind p sep + 1 in
  let head := slice p None (Some i) in
  let tail := slice p (Some i) None in
  (if truthy head && negb (all_char head sep)
   then rstrip head (String sep "") else head,
   tail).

End posixpath.

(** ** The host: file system, trace and the library primitives *)

Module Host.
Import PyStr.

(** The values that travel through [*args] and [**kwargs]. *)
Inductive Value :=
| VNone
| VBool (b : bool)
| VStr (s : string).

(** The exception classes that occur; [OSError errno] is an [OSError]
    that has no subclass of its own. *)
Inductive ExnKind :=
| TypeError | NameError | ValueError
| FileNotFoundError | FileExistsError | NotADirectoryError
| IsADirectoryError | SameFileError
| OSError (errno : Z).

Definition EBUSY : Z := 16.
Definition EINVAL : Z := 22.
Definition ENAMETOOLONG : Z := 36.
Definition ENOTEMPTY : Z := 39.

(** What [except OSError] catches: [OSError] and its subclasses
    ([shutil.SameFileError] is one, through [shutil.Error]). *)
Definition is_os_error (k : ExnKind) : bool :=
  match k with
  | TypeError | NameError | ValueError => false
  | _ => true
  end.

(** An exception (a subclass of [Exception]); [message] is [str(e)]. *)
Record Exn := MkExn { kind : ExnKind; message : string }.

Inductive Node :=
| File (content : string)
| Dir.

(** What the run leaves behind, in order: the calls of library
    primitives with their arguments, the entries handed to
    [logger.debug] and the delays handed to [time.sleep]. *)
Inductive Event :=
| Called (name : string) (args : list Value) (kwargs : list (string * Value))
| Debug (msg tag : string)
| Slept (delay : Z).

(** The file system maps a canonical location (the names from the root
    down) to its node; the root [[]] is a directory. No symbolic or hard
    links, no permissions, no special files; the limits are those of
    Linux ([PATH_MAX], [NAME_MAX]) with UTF-8 as the encoding of file
    names. The working directory is a location; a working directory that
    has been removed, which the kernel keeps alive, and the limits of
    the interpreter (recursion depth, memory) are outside the model. *)
Record World := MkWorld {
  fs : gmap (list string) Node;
  cwd : list string;
  trace : list Event
}.

Definition set_fs (w : World) (m : gmap (list string) Node) : World :=
  MkWorld m (cwd w) (trace w).

Definition record (ev : Event) (w : World) : World :=
  MkWorld (fs w) (cwd w) (trace w ++ [ev]).

(** *** The monad: state and exceptions *)

Inductive Outcome (A : Type) :=
| Ret (a : A)
| Raise (e : Exn).
Arguments Ret {A} a.
Arguments Raise {A} e.

Definition M (A : Type) : Type := World -> Outcome A * World.

Definition ret {A} (a : A) : M A := fun w => (Ret a, w).

Definition raise {A} (k : ExnKind) (msg : string) : M A :=
  fun w => (Raise (MkExn k msg), w).

Definition reraise {A} (e : Exn) : M A := fun w => (Raise e, w).

Definition bind {A B} (m : M A) (f : A -> M B) : M B :=
  fun w =>
    match m w with
    | (Ret a, w1) => f a w1
    | (Raise e, w1) => (Raise e, w1)
    end.

(** [try: m  except Exception as e: handler e]. *)
Definition try_except {A} (m : M A) (handler : Exn -> M A) : M A :=
  fun w =>
    match m w with
    | (Ret a, w1) => (Ret a, w1)
    | (Raise e, w1) => handler e w1
    end.

(** [try: m  except K as e: handler e], for the classes [K] that
    [catches] accepts. *)
Definition except_ {A} (catches : ExnKind -> bool) (m : M A)
    (handler : Exn -> M A) : M A :=
  fun w =>
    match m w with
    | (Ret a, w1) => (Ret a, w1)
    | (Raise e, w1) => if catches (kind e) then handler e w1 else (Raise e, w1)
    end.

Definition emit (ev : Event) : M unit := fun w => (Ret tt, record ev w).

(** [for x in xs: body x], where the body may [return]: [Some r] is a
    [return r] inside the loop, [None] a loop that ran to its end. *)
Fixpoint for_each {A R} (xs : list A) (body : A -> M (option R)) : M (option R) :=
  match xs with
  | [] => ret None
  | x :: xs' =>
      bind (body x) (fun r =>
        match r with
        | Some v => ret (Some v)
        | None => for_each xs' body
        end)
  end.

(** [range(n)]: empty for [n <= 0]. *)
Definition range (n : Z) : list Z := map Z.of_nat (seq 0 (Z.to_nat n)).

(** [all(map(f, xs))] and [any(map(f, xs))]: [map] is lazy and both stop
    at the first element that decides the answer. *)
Fixpoint all_map {A} (f : A -> M bool) (xs : list A) : M bool :=
  match xs with
  | [] => ret true
  | x :: xs' => bind (f x) (fun b => if b then all_map f xs' else ret false)
  end.

Fixpoint any_map {A} (f : A -> M bool) (xs : list A) : M bool :=
  match xs with
  | [] => ret false
  | x :: xs' => bind (f x) (fun b => if b then ret true else any_map f xs')
  end.

(** [[x for x in xs if f(x)]]. *)
Fixpoint filter_comp {A} (f : A -> M bool) (xs : list A) : M (list A) :=
  match xs with
  | [] => ret []
  | x :: xs' =>
      bind (f x) (fun b =>
      bind (filter_comp f xs') (fun rest =>
      ret (if b then x :: rest else rest)))
  end.

(** A callable with its [__name__]. *)
Record Callable (A : Type) := MkCallable {
  __name__ : string;
  call : list Value -> list (string * Value) -> M A
}.
Arguments MkCallable {A} _ _.
Arguments __name__ {A} _.
Arguments call {A} _ _ _ _.

(** *** Path resolution *)

Definition node_at (m : gmap (list string) Node) (loc : list string) : option Node :=
  match loc with
  | [] => Some Dir
  | _ => m !! loc
  end.

(** One step of a walk: an empty component and [.] stay, [..] goes up
    (the root is its own parent), a name goes down. *)
Definition step (cur : list string) (c : string) : list string :=
  if bool_decide (c = "" \/ c = ".") then cur
  else if bool_decide (c = "..") then removelast cur
  else cur ++ [c].

(** The length of [os.fsencode(s)]: UTF-8 takes one byte for a code
    point below 128 and two for the others below 256. *)
Fixpoint encoded_length (s : string) : Z :=
  match s with
  | "" => 0
  | String a s' =>
      (if (N_of_ascii a <? 128)%N then 1 else 2) + encoded_length s'
  end.

Definition NAME_MAX : Z := 255.
Definition PATH_MAX : Z := 4096.
Definition NUL : ascii := "000"%char.

(** What is wrong with a path before any of it is looked up: a NUL
    character is refused by Python itself, the empty path and a path of
    [PATH_MAX] bytes or more by the kernel. *)
Definition path_error (p : string) : option ExnKind :=
  if mem NUL p then Some ValueError
  else if negb (truthy p) then Some FileNotFoundError
  else if PATH_MAX <=? encoded_length p then Some (OSError ENAMETOOLONG)
  else None.

(** One component at a time from [cur]: the place stepped from must be a
    directory and the component no longer than [NAME_MAX]; the place
    stepped to need not exist. *)
Fixpoint walk (m : gmap (list string) Node) (cur : list string)
    (comps : list string) : ExnKind + list string :=
  match comps with
  | [] => inr cur
  | c :: rest =>
      match node_at m cur with
      | Some Dir =>
          if NAME_MAX <? encoded_length c then inl (OSError ENAMETOOLONG)
          else walk m (step cur c) rest
      | Some (File _) => inl NotADirectoryError
      | None => inl FileNotFoundError
      end
  end.

(** Trailing separators leave empty components behind; what a path
    names is told by the components before them. *)
Fixpoint strip_empty_tail (comps : list string) : list string :=
  match comps with
  | [] => []
  | c :: rest =>
      match strip_empty_tail rest with
      | [] => if bool_decide (c = "") then [] else [c]
      | r => c :: r
      end
  end.

(** The components of a path and the place they are walked from: the
    root for an absolute path, the working directory otherwise. *)
Definition components (w : World) (p : string) : list string * list string :=
  match split p "/" with
  | "" :: comps => ([], comps)
  | comps => (cwd w, comps)
  end.

Definition resolve (w : World) (p : string) : ExnKind + list string :=
  match path_error p with
  | Some k => inl k
  | None => let '(start, comps) := components w p in walk (fs w) start comps
  end.

(** The directory an entry is made in or removed from, and the last
    component, which names the entry: every component before the last is
    walked, and where the walk ends must be a directory. The root has no
    last component. *)
Definition parent (w : World) (p : string)
    : ExnKind + (list string * option string) :=
  match path_error p with
  | Some k => inl k
  | None =>
      let '(start, comps) := components w p in
      let named := strip_empty_tail comps in
      match last named with
      | None => inr (start, None)
      | Some c =>
          match walk (fs w) start (removelast named) with
          | inl k => inl k
          | inr cur =>
              match node_at (fs w) cur with
              | Some Dir => inr (cur, Some c)
              | Some (File _) => inl NotADirectoryError
              | None => inl FileNotFoundError
              end
          end
      end
  end.

(** A path that ends in a separator after a component. *)
Definition trailing_slash (w : World) (p : string) : bool :=
  let comps := snd (components w p) in
  negb (bool_decide (strip_empty_tail comps = comps)).

(** [os.stat]: the node a path names, if any. *)
Definition stat (w : World) (p : string) : ExnKind + Node :=
  match resolve w p with
  | inl k => inl k
  | inr loc =>
      match node_at (fs w) loc with
      | Some n => inr n
      | None => inl FileNotFoundError
      end
  end.

Definition isfile (w : World) (p : string) : bool :=
  match stat w p with inr (File _) => true | _ => false end.

Definition isdir (w : World) (p : string) : bool :=
  match stat w p with inr Dir => true | _ => false end.

Definition lexists (w : World) (p : string) : bool :=
  match stat w p with inr _ => true | _ => false end.

(** The entry names of the directory at [loc], in the order the map
    lists them. *)
Definition entry_name (loc : list string) (key : list string) : option string :=
  match last key with
  | Some name => if bool_decide (key = loc ++ [name]) then Some name else None
  | None => None
  end.

Definition entries (m : gmap (list string) Node) (loc : list string) : list string :=
  omap (fun kv => entry_name loc (fst kv)) (map_to_list m).

End Host.

(** ** The library primitives the module calls

    Each primitive records its call in the trace and then acts on the file
    system; the calls the library makes inside ([mkdir] from [makedirs],
    [open] from [copyfile]) are not recorded. Exception messages are
    indicative; the properties below speak of the [kind] only. *)

Module Lib.
Import PyStr Host.

Definition strerror (k : ExnKind) : string :=
  match k with
  | FileNotFoundError => "[Errno 2] No such file or directory"
  | FileExistsError => "[Errno 17] File exists"
  | NotADirectoryError => "[Errno 20] Not a directory"
  | IsADirectoryError => "[Errno 21] Is a directory"
  | SameFileError => "are the same file"
  | TypeError => "TypeError"
  | NameError => "NameError"
  | ValueError => "embedded null byte"
  | OSError errno =>
      if errno =? EBUSY then "[Errno 16] Device or resource busy"
      else if errno =? EINVAL then "[Errno 22] Invalid argument"
      else if errno =? ENAMETOOLONG then "[Errno 36] File name too long"
      else if errno =? ENOTEMPTY then "[Errno 39] Directory not empty"
      else "[Errno " +:+ pretty errno +:+ "]"
  end.

Definition os_error {A} (k : ExnKind) (p : string) : M A :=
  raise k (strerror k +:+ ": '" +:+ p +:+ "'").

Definition bad_arguments {A} (name : string) : M A :=
  raise TypeError (name +:+ "() got arguments it does not accept").

(** A primitive: record the call, then run the body. *)
Definition primitive {A} (name : string)
    (body : list Value -> list (string * Value) -> M A) : Callable A :=
  MkCallable name (fun args kwargs =>
    bind (emit (Called name args kwargs)) (fun _ => body args kwargs)).

(** [os.path.isfile(path)] and [os.path.isdir(path)]: a failing [stat]
    is [False]. *)
Definition os_path_isfile : Callable bool :=
  primitive "isfile" (fun args kwargs w =>
    match args, kwargs with
    | [VStr p], [] => ret (isfile w p) w
    | _, _ => bad_arguments "isfile" w
    end).

Definition os_path_isdir : Callable bool :=
  primitive "isdir" (fun args kwargs w =>
    match args, kwargs with
    | [VStr p], [] => ret (isdir w p) w
    | _, _ => bad_arguments "isdir" w
    end).

(** [os.remove(path, *, dir_fd=None)]: one positional argument, and no
    more; [dir_fd] is keyword-only. *)
Definition os_remove : Callable unit :=
  primitive "remove" (fun args kwargs w =>
    match args, kwargs with
    | [VStr p], ([] | [("dir_fd", VNone)]) =>
        match resolve w p with
        | inl k => os_error k p w
        | inr loc =>
            match node_at (fs w) loc with
            | Some (File _) => (Ret tt, set_fs w (delete loc (fs w)))
            | Some Dir => os_error IsADirectoryError p w
            | None => os_error FileNotFoundError p w
            end
        end
    | _, _ =>
        raise TypeError "remove() takes exactly 1 positional argument" w
    end).

(** [os.listdir(path)]: the entry names, in arbitrary order. *)
Definition os_listdir : Callable (list string) :=
  primitive "listdir" (fun args kwargs w =>
    match args, kwargs with
    | [VStr p], [] =>
        match resolve w p with
        | inl k => os_error k p w
        | inr loc =>
            match node_at (fs w) loc with
            | Some Dir => ret (entries (fs w) loc) w
            | Some (File _) => os_error NotADirectoryError p w
            | None => os_error FileNotFoundError p w
            end
        end
    | _, _ => bad_arguments "listdir" w
    end).

(** [os.mkdir(path)]: the entry named must not be there, and [.], [..]
    and the root are there. Trailing separators are allowed. *)
Definition mkdir (w : World) (p : string) : ExnKind + gmap (list string) Node :=
  match parent w p with
  | inl k => inl k
  | inr (_, None) => inl FileExistsError
  | inr (cur, Some c) =>
      if bool_decide (c = "." \/ c = "..") then inl FileExistsError
      else if NAME_MAX <? encoded_length c then inl (OSError ENAMETOOLONG)
      else match node_at (fs w) (cur ++ [c]) with
           | Some _ => inl FileExistsError
           | None => inr (<[cur ++ [c] := Dir]> (fs w))
           end
  end.

Definition os_mkdir (p : string) : M unit :=
  fun w =>
    match mkdir w p with
    | inl k => os_error k p w
    | inr m => (Ret tt, set_fs w m)
    end.

(** [os.makedirs(name, mode=0o777, exist_ok=False)], as [os.py] has it:
<<
    head, tail = path.split(name)
    if not tail:
        head, tail = path.split(head)
    if head and tail and not path.exists(head):
        try:
            makedirs(head, exist_ok=exist_ok)
        except FileExistsError:
            pass
        if tail == curdir:
            return
    try:
        mkdir(name, mode)
    except OSError:
        if not exist_ok or not path.isdir(name):
            raise
>>
    The recursion is on a head that is shorter than the name; [fuel]
    bounds its depth, and more fuel than the name has characters is
    never used up ([makedirs_fuel]). *)
Fixpoint makedirs (fuel : nat) (name : string) (exist_ok : bool) : M unit :=
  match fuel with
  | O => ret tt
  | S fuel' =>
      let '(head, tail) := posixpath.split name in
      let '(head, tail) :=
        if negb (truthy tail) then posixpath.split head else (head, tail) in
      let make : M unit :=
        except_ is_os_error (os_mkdir name)
          (fun e w =>
             if negb exist_ok || negb (isdir w name) then reraise e w
             else ret tt w) in
      if truthy head && truthy tail
      then
        bind (fun w => ret (lexists w head) w) (fun there =>
        if negb there
        then
          bind (except_ (fun k => match k with FileExistsError => true | _ => false end)
                  (makedirs fuel' head exist_ok)
                  (fun _ => ret tt)) (fun _ =>
          if bool_decide (tail = ".") then ret tt else make)
        else make)
      else make
  end.

(** The call of [os.makedirs] from outside: a name of [n] characters
    needs no more than [n] nested calls. *)
Definition os_makedirs : Callable unit :=
  primitive "makedirs" (fun args kwargs =>
    match args, kwargs with
    | [VStr p], [] => makedirs (S (String.length p)) p false
    | [VStr p], [("exist_ok", VBool b)] => makedirs (S (String.length p)) p b
    | _, _ => bad_arguments "makedirs"
    end).

(** [os.path.samefile] as [shutil._samefile] calls it: both paths are
    looked up, and they are the same file when they lead to the same
    place; an [OSError] on the way means they are not. *)
Definition located (w : World) (p : string) : ExnKind + list string :=
  match resolve w p with
  | inl k => inl k
  | inr loc =>
      match node_at (fs w) loc with
      | Some _ => inr loc
      | None => inl FileNotFoundError
      end
  end.

Definition _samefile (src dst : string) : M bool :=
  fun w =>
    match located w src with
    | inl k => if is_os_error k then ret false w else os_error k src w
    | inr from =>
        match located w dst with
        | inl k => if is_os_error k then ret false w else os_error k dst w
        | inr to => ret (bool_decide (from = to)) w
        end
    end.

(** [open(path, 'rb')] and reading all of it. *)
Definition read_file (w : World) (p : string) : ExnKind + string :=
  match stat w p with
  | inl k => inl k
  | inr Dir => inl IsADirectoryError
  | inr (File content) => inr content
  end.

(** [open(path, 'wb')] and writing [content]: the file is made or
    overwritten in the directory the path leads to. A path that ends in
    a separator is refused before its last name is looked up. *)
Definition write_file (w : World) (p content : string)
    : ExnKind + gmap (list string) Node :=
  match parent w p with
  | inl k => inl k
  | inr (_, None) => inl IsADirectoryError
  | inr (cur, Some c) =>
      if negb (bool_decide (c = "." \/ c = "..")) && trailing_slash w p
      then inl IsADirectoryError
      else if NAME_MAX <? encoded_length c then inl (OSError ENAMETOOLONG)
      else match node_at (fs w) (step cur c) with
           | Some Dir => inl IsADirectoryError
           | _ => inr (<[step cur c := File content]> (fs w))
           end
  end.

(** [shutil.copyfile(src, dst)], without the branches for symbolic
    links and named pipes:
<<
    if _samefile(src, dst):
        raise SameFileError(...)
    with open(src, 'rb') as fsrc:
        try:
            with open(dst, 'wb') as fdst:
                copyfileobj(fsrc, fdst)
        except IsADirectoryError as e:
            if not os.path.exists(dst):
                raise FileNotFoundError(f'Directory does not exist: {dst}') from e
            else:
                raise
    return dst
>> *)
Definition copyfile (src dst : string) : M string :=
  bind (_samefile src dst) (fun same =>
  if same then os_error SameFileError dst
  else fun w =>
    match read_file w src with
    | inl k => os_error k src w
    | inr content =>
        match write_file w dst content with
        | inr m => (Ret dst, set_fs w m)
        | inl IsADirectoryError =>
            if negb (lexists w dst)
            then raise FileNotFoundError ("Directory does not exist: " +:+ dst) w
            else os_error IsADirectoryError dst w
        | inl k => os_error k dst w
        end
    end).

(** [shutil.copy(src, dst)]:
<<
    if os.path.isdir(dst):
        dst = os.path.join(dst, os.path.basename(src))
    copyfile(src, dst)
    copymode(src, dst)
    return dst
>>
    File modes are not part of the model. *)
Definition shutil_copy : Callable string :=
  primitive "copy" (fun args kwargs =>
    match args, kwargs with
    | [VStr src; VStr dst], [] =>
        fun w =>
          let target :=
            if isdir w dst then posixpath.join dst (posixpath.basename src)
            else dst in
          copyfile src target w
    | _, _ => bad_arguments "copy"
    end).

(** [glob.glob(pathname)]: the matches come from [glob_matches], a
    function of the file system, the working directory and the pattern,
    in the order it reports them; [glob] swallows the errors of the file
    system. *)
Definition glob_glob
    (glob_matches : gmap (list string) Node -> list string -> string -> list string)
    : Callable (list string) :=
  primitive "glob" (fun args kwargs w =>
    match args, kwargs with
    | [VStr pattern], [] => ret (glob_matches (fs w) (cwd w) pattern) w
    | _, _ => bad_arguments "glob" w
    end).

(** A pattern without wildcards matches itself when it exists. *)
Definition glob_literal (m : gmap (list string) Node) (dir : list string)
    (pattern : string) : list string :=
  if lexists (MkWorld m dir []) pattern then [pattern] else [].

(** [logger.debug(message, module_name)]. *)
Definition logger_debug (msg tag : string) : M unit := emit (Debug msg tag).

(** [time.sleep(secs)]: a negative length is a [ValueError]. *)
Definition time_sleep (secs : Z) : M unit :=
  if secs <? 0 then raise ValueError "sleep length must be non-negative"
  else emit (Slept secs).

(** [sorted(xs)] on strings: ascending by code point; a stable merge sort. *)
Definition sorted (xs : list string) : list string := merge_sort String.le xs.

(** [os.path.getsize(path)]: the size of a file is the length of its
    content. The size a file system reports for a directory is not
    modelled (the module never asks for it); it is given as 0. *)
Definition os_path_getsize : Callable Z :=
  primitive "getsize" (fun args kwargs w =>
    match args, kwargs with
    | [VStr p], [] =>
        match stat w p with
        | inr (File content) => ret (len content) w
        | inr Dir => ret 0 w
        | inl k => os_error k p w
        end
    | _, _ => bad_arguments "getsize" w
    end).


(** [os.rmdir(path)]: the entry named must be an empty directory; [.],
    [..] and the root are refused. *)
Definition rmdir (w : World) (p : string) : ExnKind + gmap (list string) Node :=
  match parent w p with
  | inl k => inl k
  | inr (_, None) => inl (OSError EBUSY)
  | inr (cur, Some c) =>
      if bool_decide (c = ".") then inl (OSError EINVAL)
      else if bool_decide (c = "..") then inl (OSError ENOTEMPTY)
      else if NAME_MAX <? encoded_length c then inl (OSError ENAMETOOLONG)
      else match node_at (fs w) (cur ++ [c]) with
           | None => inl FileNotFoundError
           | Some (File _) => inl NotADirectoryError
           | Some Dir =>
               if bool_decide (entries (fs w) (cur ++ [c]) = [])
               then inr (delete (cur ++ [c]) (fs w))
               else inl (OSError ENOTEMPTY)
           end
  end.

(** What is left when everything below [loc] is removed, and [loc]
    itself when [top] says so. *)
Definition remove_tree (m : gmap (list string) Node) (loc : list string)
    (top : bool) : gmap (list string) Node :=
  filter (fun kv => ~ (loc `prefix_of` fst kv /\ (top = true \/ fst kv <> loc))) m.

(** [shutil.rmtree(path, ignore_errors=True)], the call the module
    makes; other ways of calling it are outside the model. The directory
    is opened and emptied through its descriptor; then
<<
    try:
        os.rmdir(path)
    except OSError:
        onerror(os.rmdir, path, sys.exc_info())
>>
    looks the path up once more, in the file system as it is by then,
    and [onerror] ignores the failure. *)
Definition shutil_rmtree : Callable unit :=
  primitive "rmtree" (fun args kwargs w =>
    match args, kwargs with
    | [VStr p], [("ignore_errors", VBool true)] =>
        match resolve w p with
        | inr loc =>
            match node_at (fs w) loc with
            | Some Dir =>
                let emptied := set_fs w (remove_tree (fs w) loc false) in
                match rmdir emptied p with
                | inr m => (Ret tt, set_fs w m)
                | inl k =>
                    if is_os_error k then (Ret tt, emptied)
                    else os_error k p emptied
                end
            | _ => ret tt w
            end
        | inl _ => ret tt w
        end
    | _, _ => bad_arguments "rmtree" w
    end).

(** [os.getcwd()]. *)
Definition os_getcwd (w : World) : string := "/" +:+ join_with "/" (cwd w).

(** [os.path.abspath(path)]: a relative path is joined to the working
    directory; the result is normalised. It reads the world and leaves
    it as it is. *)
Definition os_path_abspath (path : string) : M string :=
  fun w =>
    ret (posixpath.normpath
           (if posixpath.isabs path then path
            else posixpath.join (os_getcwd w) path)) w.

End Lib.

(** ** facefusion/filesystem.py *)

(** [facefusion.choices]: the configured formats of each category. *)
Record Choices := MkChoices {
  audio_formats : list string;
  image_formats : list string;
  video_formats : list string
}.

Module filesystem.
Import PyStr Host Lib.

Notation "x <- m ;; k" := (bind m (fun x => k))
  (at level 100, m at next level, right associativity,
   format "'[v' x  <-  m  ;;  '/' k ']'").
Notation "m ;;; k" := (bind m (fun _ => k))
  (at level 100, right associativity).

(** [__name__] of the module, the tag of its log entries. *)
Definition module_name : string := "facefusion.filesystem".

(** The names bound at module level: the imports and the [def]s. *)
Definition module_globals : list string :=
  [ "glob"; "os"; "shutil"; "time"; "List"; "Optional"; "facefusion"; "logger";
    "_error_handler"; "is_file"; "is_directory"; "get_file_size";
    "get_file_name"; "get_file_extension"; "get_file_format";
    "same_file_extension"; "_is_media_type"; "is_audio"; "has_audio";
    "are_audios"; "is_image"; "has_image"; "are_images"; "is_video";
    "has_video"; "are_videos"; "filter_audio_paths"; "filter_image_paths";
    "_file_operation"; "copy_file"; "move_file"; "remove_file";
    "resolve_file_paths"; "resolve_file_pattern"; "in_directory";
    "create_directory"; "remove_directory"; "resolve_relative_path" ].

(** The truth value of a name that is no parameter and no local of the
    function that reads it: it is looked up among the module's globals,
    where every binding is a module, a class or a function, all of them
    true, and then among the builtins; a name bound in neither (no
    builtin is called [audio_paths]) is a [NameError]. *)
Definition global_truth (name : string) : M bool :=
  if bool_decide (name ∈ module_globals) then ret true
  else raise NameError ("name '" +:+ name +:+ "' is not defined").

(** [bool(x)] of what [_error_handler] returned: [None] is false. *)
Definition truth (r : option bool) : bool := from_option id false r.

(** [iter(x)] of what [_error_handler] returned: [None] is not iterable. *)
Definition iterable {A} (r : option (list A)) : M (list A) :=
  match r with
  | Some xs => ret xs
  | None => raise TypeError "'NoneType' object is not iterable"
  end.

Definition default_retries : Z := 3.
Definition default_delay : Z := 1.

(** The body of the loop of [_error_handler]: the [try] statement, run
    for attempt number [attempt]. [None] goes on with the loop, [Some]
    returns from the function. *)
Definition _error_handler_attempt {A} (func : Callable A) (args : list Value)
    (retries delay : Z) (kwargs : list (string * Value)) (attempt : Z)
    : M (option A) :=
  try_except
    (result <- call func args kwargs ;;
     (if 0 <? attempt
      then logger_debug ("Success on attempt " +:+ pretty (attempt + 1) +:+ "/"
                         +:+ pretty retries +:+ " for " +:+ __name__ func)
                        module_name
      else ret tt) ;;;
     ret (Some result))
    (fun e =>
     logger_debug ("Error on attempt " +:+ pretty (attempt + 1) +:+ "/"
                   +:+ pretty retries +:+ " for " +:+ __name__ func
                   +:+ ": " +:+ message e)
                  module_name ;;;
     if attempt <? retries - 1
     then time_sleep delay ;;; ret None
     else reraise e).

(** [for attempt in range(retries)]; a loop that runs to its end falls
    off the function, which then returns [None]. *)
Definition _error_handler {A} (func : Callable A) (args : list Value)
    (retries delay : Z) (kwargs : list (string * Value)) : M (option A) :=
  for_each (range retries) (_error_handler_attempt func args retries delay kwargs).

Definition is_file (file_path : string) : M bool :=
  if truthy file_path
  then r <- _error_handler os_path_isfile [VStr file_path]
              default_retries default_delay [] ;;
       ret (truth r)
  else ret false.

Definition is_directory (directory_path : string) : M bool :=
  if truthy directory_path
  then r <- _error_handler os_path_isdir [VStr directory_path]
              default_retries default_delay [] ;;
       ret (truth r)
  else ret false.

Definition get_file_name (file_path : string) : option string :=
  let '(name, _) := posixpath.splitext (posixpath.basename file_path) in
  if truthy name then Some name else None.

Definition get_file_extension (file_path : string) : option string :=
  let '(_, extension) := posixpath.splitext file_path in
  if truthy extension then Some (lower extension) else None.

(** [d.get(key, default)] on a dict written as its items. *)
Fixpoint dict_get (d : list (string * string)) (key default : string) : string :=
  match d with
  | [] => default
  | (k, v) :: d' => if String.eqb k key then v else dict_get d' key default
  end.

Definition get_file_format (file_path : string) : option string :=
  match get_file_extension file_path with
  | None => None
  | Some extension =>
      if negb (truthy extension) then None
      else Some (dict_get [(".jpg", "jpeg"); (".tif", "tiff")]
                          extension (lstrip extension "."))
  end.

(** [x in formats] for [x] a string or [None]. *)
Definition member (x : option string) (formats : list string) : bool :=
  match x with
  | Some s => bool_decide (s ∈ formats)
  | None => false
  end.

Definition _is_media_type (path : string) (formats : list string) : M bool :=
  b <- is_file path ;;
  ret (b && member (get_file_format path) formats).

Section Configured.
Variable choices : Choices.
Variable glob_matches :
  gmap (list string) Node -> list string -> string -> list string.

Definition is_audio (audio_path : string) : M bool :=
  _is_media_type audio_path (audio_formats choices).

Definition has_audio (audio_paths : list string) : M bool :=
  match audio_paths with
  | [] => ret false
  | _ => any_map is_audio audio_paths
  end.

Definition are_audios (audio_paths : list string) : M bool :=
  match audio_paths with
  | [] => ret false
  | _ => all_map is_audio audio_paths
  end.

Definition is_image (image_path : string) : M bool :=
  _is_media_type image_path (image_formats choices).

Definition has_image (image_paths : list string) : M bool :=
  match image_paths with
  | [] => ret false
  | _ => any_map is_image image_paths
  end.

(** The condition reads [audio_paths], which is not the parameter
    ([image_paths]) and no local: a global lookup. *)
Definition are_images (image_paths : list string) : M bool :=
  audio_paths <- global_truth "audio_paths" ;;
  if audio_paths then all_map is_image image_paths else ret false.

Definition is_video (video_path : string) : M bool :=
  _is_media_type video_path (video_formats choices).

Definition has_video (video_paths : list string) : M bool :=
  match video_paths with
  | [] => ret false
  | _ => any_map is_video video_paths
  end.

Definition are_videos (video_paths : list string) : M bool :=
  match video_paths with
  | [] => ret false
  | _ => all_map is_video video_paths
  end.

Definition filter_audio_paths (paths : list string) : M (list string) :=
  match paths with
  | [] => ret []
  | _ => filter_comp is_audio paths
  end.

Definition filter_image_paths (paths : list string) : M (list string) :=
  match paths with
  | [] => ret []
  | _ => filter_comp is_image paths
  end.

Definition _file_operation {A} (operation : Callable A) (src dest : Value)
    (success_condition : M bool) : M bool :=
  _error_handler operation [src; dest] default_retries default_delay [] ;;;
  success_condition.

Definition copy_file (file_path move_path : string) : M bool :=
  b <- is_file file_path ;;
  if b
  then _file_operation shutil_copy (VStr file_path) (VStr move_path)
         (is_file move_path)
  else ret false.

Definition remove_file (file_path : string) : M bool :=
  b <- is_file file_path ;;
  if b
  then _file_operation os_remove (VStr file_path) VNone
         (still <- is_file file_path ;; ret (negb still))
  else ret false.

Definition resolve_file_paths (directory_path : string) : M (list string) :=
  b <- is_directory directory_path ;;
  if negb b then ret []
  else
    r <- _error_handler os_listdir [VStr directory_path]
           default_retries default_delay [] ;;
    entries <- iterable r ;;
    ret (map (posixpath.join directory_path)
           (List.filter (fun entry => negb (startswith_any entry ["."; "__"]))
              (sorted entries))).

Definition in_directory (file_path : string) : M bool :=
  if negb (truthy file_path) then ret false
  else
    let dir_path := posixpath.dirname file_path in
    if negb (truthy dir_path) then ret false
    else
      d <- is_directory file_path ;;
      if d then ret false
      else is_directory dir_path.

Definition resolve_file_pattern (file_pattern : string) : M (list string) :=
  b <- in_directory file_pattern ;;
  if b
  then r <- _error_handler (glob_glob glob_matches) [VStr file_pattern]
              default_retries default_delay [] ;;
       matches <- iterable r ;;
       ret (sorted matches)
  else ret [].

Definition create_directory (directory_path : string) : M bool :=
  if negb (truthy directory_path) then ret false
  else
    f <- is_file directory_path ;;
    if f then ret false
    else
      _error_handler os_makedirs [VStr directory_path]
        default_retries default_delay [("exist_ok", VBool true)] ;;;
      is_directory directory_path.

End Configured.

Definition get_file_size (file_path : string) : M (option Z) :=
  b <- is_file file_path ;;
  if b
  then _error_handler os_path_getsize [VStr file_path]
         default_retries default_delay []
  else ret (Some 0).

Definition same_file_extension (first_path second_path : string) : bool :=
  bool_decide (get_file_extension first_path = get_file_extension second_path).

Section Moving.
(** [shutil.move], whatever it does. *)
Variable shutil_move : Callable string.

Definition move_file (file_path move_path : string) : M bool :=
  b <- is_file file_path ;;
  if b
  then _file_operation shutil_move (VStr file_path) (VStr move_path)
         (still <- is_file file_path ;;
          if negb still then is_file move_path else ret false)
  else ret false.

End Moving.

Definition remove_directory (directory_path : string) : M bool :=
  b <- is_directory directory_path ;;
  if negb b then ret false
  else
    _error_handler shutil_rmtree [VStr directory_path]
      default_retries default_delay [("ignore_errors", VBool true)] ;;;
    still <- is_directory directory_path ;;
    ret (negb still).

(** [__file__] is the path of the module's own file. *)
Definition resolve_relative_path (__file__ path : string) : M string :=
  os_path_abspath (posixpath.join (posixpath.dirname __file__) path).

End filesystem.

(** ** Vocabulary of the properties *)

Import PyStr Host Lib filesystem.

(** A predicate of the module holds in a world: it returns [True] there. *)
Definition holds (m : M bool) (w : World) : bool :=
  match fst (m w) with
  | Ret true => true
  | _ => false
  end.

(** Two worlds with the same files: the file system and the working
    directory agree; the traces may differ. *)
Definition same_files (w w' : World) : Prop :=
  fs w' = fs w /\ cwd w' = cwd w.

(** A file system that has grown by directories only: what was there is
    there as it was, and what is new is a directory. *)
Definition only_adds_directories (m m' : gmap (list string) Node) : Prop :=
  (forall key (n : Node), m !! key = Some n -> m' !! key = Some n) /\
  (forall key (n : Node), m' !! key = Some n -> m !! key = Some n \/ n = Dir).

Definition extends (w w' : World) : Prop :=
  cwd w' = cwd w /\ only_adds_directories (fs w) (fs w').

(** A computation whose every run, returning or raising, takes a world
    to one that [R] relates to it. *)
Definition preserves (R : World -> World -> Prop) {A} (m : M A) : Prop :=
  forall w, R w (snd (m w)).

(** What [os.listdir] reports for a path that names a directory. *)
Definition listing (w : World) (p : string) : list string :=
  match resolve w p with
  | inr loc => entries (fs w) loc
  | inl _ => []
  end.

(** An entry that [resolve_file_paths] keeps. *)
Definition visible (entry : string) : bool :=
  negb (startswith entry "." || startswith entry "__").

Definition is_call (name : string) (ev : Event) : bool :=
  match ev with
  | Called n _ _ => String.eqb n name
  | _ => false
  end.

(** *** The retry wrapper: its log entries and its attempts *)

Section Retry.
Context {A : Type}.
Variable func : Callable A.
Variable args : list Value.
Variable kwargs : list (string * Value).
Variables retries delay : Z.

Definition error_entry (attempt : Z) (e : Exn) : Event :=
  Debug ("Error on attempt " +:+ pretty (attempt + 1) +:+ "/"
         +:+ pretty retries +:+ " for " +:+ __name__ func
         +:+ ": " +:+ message e) module_name.

Definition success_entry (attempt : Z) : Event :=
  Debug ("Success on attempt " +:+ pretty (attempt + 1) +:+ "/"
         +:+ pretty retries +:+ " for " +:+ __name__ func) module_name.

(** [Attempts k w o w']: starting in [w] the operation is invoked [k]
    times in a row, [k >= 1]; each invocation but the last raises, is
    logged and is followed by the delay; the last one has outcome [o]
    and leaves the world [w']. *)
Inductive Attempts : nat -> World -> Outcome A -> World -> Prop :=
| attempt_first w o w1 :
    call func args kwargs w = (o, w1) ->
    Attempts 1 w o w1
| attempt_next k w e w1 o w2 :
    Attempts k w (Raise e) w1 ->
    call func args kwargs
      (record (Slept delay) (record (error_entry (Z.of_nat k - 1) e) w1)) = (o, w2) ->
    Attempts (S k) w o w2.

End Retry.

(** *** The format of an extension, as the specification words it *)

Definition format_of_extension (extension : string) : option string :=
  if String.eqb extension "" then None
  else if String.eqb (lower extension) ".jpg" then Some "jpeg"
  else if String.eqb (lower extension) ".tif" then Some "tiff"
  else Some (PyStr.drop 1 (lower extension)).

(** *** Sample worlds *)

Module Sample.

Definition choices : Choices :=
  MkChoices ["flac"; "m4a"; "mp3"; "ogg"; "opus"; "wav"]
            ["bmp"; "jpeg"; "png"; "tiff"; "webp"]
            ["avi"; "m4v"; "mkv"; "mov"; "mp4"; "webm"].

(** [/d] holds [.git], [__pycache__], [a.txt] and [b.txt]; [/f] and
    [/p.JPG] are regular files. *)
Definition tree : gmap (list string) Node :=
  list_to_map
    [ (["d"], Dir);
      (["d"; "b.txt"], File "b");
      (["d"; "__pycache__"], Dir);
      (["d"; ".git"], Dir);
      (["d"; "a.txt"], File "a");
      (["f"], File "f");
      (["p.JPG"], File "p") ].

Definition world : World := MkWorld tree [] [].

(** An operation that fails until the caller has slept once. *)
Definition flaky : Callable string :=
  primitive "flaky" (fun _ _ w =>
    if existsb (fun ev => match ev with Slept _ => true | _ => false end) (trace w)
    then ret "done" w
    else raise FileNotFoundError "not yet" w).

End Sample.

(** *** Further vocabulary *)

(** A path whose base name has a character other than a dot: a stem an
    extension can be split from. *)
Definition stemmed (pre : string) : bool :=
  negb (all_char (posixpath.basename pre) ".").

(** A component of a normalised path. *)
Definition normal_component (c : string) : Prop :=
  c <> "" /\ c <> "." /\ c <> ".." /\ mem "/" c = false.

(** [bool(xs)] of a list. *)
Definition nonempty {A} (xs : list A) : bool :=
  match xs with [] => false | _ => true end.

(** The classification of one path, as a function of the files. *)
Definition classified (formats : list string) (w : World) (p : string) : bool :=
  holds (is_file p) w && member (get_file_format p) formats.

Module MoreSamples.

(** A move that renames a regular file: the plain case of
    [shutil.move]. *)
Definition rename : Callable string :=
  primitive "move" (fun args kwargs w =>
    match args, kwargs with
    | [VStr src; VStr dst], [] =>
        match resolve w src, resolve w dst with
        | inr from, inr to =>
            match node_at (fs w) from with
            | Some (File content) =>
                (Ret dst, set_fs w (<[to := File content]> (delete from (fs w))))
            | _ => os_error FileNotFoundError src w
            end
        | _, _ => os_error FileNotFoundError src w
        end
    | _, _ => bad_arguments "move" w
    end).

End MoreSamples.

(** * Properties *)

(** ** Strings and paths *)

Section StringFacts.

Lemma app_cons (a : ascii) (s t : string) :
  String a s +:+ t = String a (s +:+ t).
Proof. reflexivity. Qed.

Lemma take_drop (n : nat) (s : string) : PyStr.take n s +:+ PyStr.drop n s = s.
Proof.
  revert s; induction n as [|n IH]; intros [|a s]; simpl; try reflexivity.
  now rewrite app_cons, IH.
Qed.

Lemma take_length (n : nat) (s : string) :
  String.length (PyStr.take n s) = Nat.min n (String.length s).
Proof.
  revert s; induction n as [|n IH]; intros [|a s]; simpl; try reflexivity.
  now rewrite IH.
Qed.

Lemma len_nonneg (s : string) : 0 <= len s.
Proof. unfold len; lia. Qed.

Lemma len_app (s t : string) : len (s +:+ t) = len s + len t.
Proof.
  unfold len. induction s as [|a s IH]; [reflexivity|].
  rewrite app_cons. simpl String.length. lia.
Qed.

Lemma rfind_bounds (s : string) (c : ascii) : -1 <= rfind s c < len s.
Proof.
  induction s as [|a s IH]; unfold len in *; simpl String.length; simpl rfind.
  - lia.
  - destruct (0 <=? rfind s c) eqn:E.
    + apply Z.leb_le in E. lia.
    + destruct (Ascii.eqb a c); lia.
Qed.

Lemma rfind_absent (s : string) (c : ascii) :
  rfind s c = -1 <-> mem c s = false.
Proof.
  induction s as [|a s IH]; simpl.
  - split; reflexivity.
  - pose proof (rfind_bounds s c) as B.
    destruct (0 <=? rfind s c) eqn:E.
    + apply Z.leb_le in E. split.
      * lia.
      * intros H. apply orb_false_iff in H as [_ H].
        apply IH in H. lia.
    + apply Z.leb_gt in E.
      assert (rfind s c = -1) as R by lia. apply IH in R. rewrite R.
      destruct (Ascii.eqb a c); simpl; split; intros; try reflexivity;
        discriminate.
Qed.

Lemma rfind_app (s t : string) (c : ascii) :
  rfind (s +:+ t) c =
  if 0 <=? rfind t c then len s + rfind t c else rfind s c.
Proof.
  induction s as [|a s IH].
  - change ("" +:+ t) with t. unfold len; simpl.
    destruct (0 <=? rfind t c) eqn:E; [lia|].
    apply Z.leb_gt in E. pose proof (rfind_bounds t c). lia.
  - change (String a s +:+ t) with (String a (s +:+ t)).
    simpl rfind. rewrite IH. unfold len in *. simpl String.length.
    pose proof (rfind_bounds s c) as Bs.
    destruct (0 <=? rfind t c) eqn:E.
    + apply Z.leb_le in E.
      replace (0 <=? Z.of_nat (String.length s) + rfind t c) with true
        by (symmetry; apply Z.leb_le; lia).
      lia.
    + reflexivity.
Qed.

(** The slice [s[i:]] for an index in range. *)
Lemma slice_from (s : string) (i : Z) :
  0 <= i -> slice s (Some i) None = PyStr.drop (Z.to_nat i) s.
Proof.
  intros Hi. unfold slice, bound; simpl.
  replace (i <? 0) with false by (symmetry; apply Z.ltb_ge; lia).
  unfold len.
  destruct (Z.le_ge_cases i (Z.of_nat (String.length s))) as [H|H].
  - rewrite Z.min_l by lia.
    rewrite <- (take_drop (Z.to_nat i) s) at 2.
    generalize (Z.to_nat i) as n. intros n.
    assert (forall m t, (String.length t <= m)%nat -> PyStr.take m t = t) as T.
    { intros m t; revert m; induction t as [|a t IH]; intros [|m] L;
        simpl in *; try reflexivity; try lia.
      f_equal. apply IH. lia. }
    rewrite take_drop. apply T.
    assert (forall k t, (String.length (PyStr.drop k t) + Nat.min k (String.length t)
                         = String.length t)%nat) as D.
    { intros k; induction k as [|k IH]; intros [|a t]; simpl; try lia.
      specialize (IH t). lia. }
    specialize (D n s). lia.
  - rewrite Z.min_r by lia. rewrite Nat2Z.id.
    assert (forall k t, (String.length t <= k)%nat -> PyStr.drop k t = "") as D.
    { intros k; induction k as [|k IH]; intros [|a t] L; simpl in *;
        try reflexivity; try lia.
      apply IH. lia. }
    rewrite !D by lia. now destruct (_ - _)%nat.
Qed.

(** The slice [s[:i]] for an index in range. *)
Lemma slice_to (s : string) (i : Z) :
  0 <= i -> slice s None (Some i) = PyStr.take (Z.to_nat i) s.
Proof.
  intros Hi. unfold slice, bound; simpl.
  replace (i <? 0) with false by (symmetry; apply Z.ltb_ge; lia).
  rewrite Nat.sub_0_r. unfold len.
  destruct (Z.le_ge_cases i (Z.of_nat (String.length s))) as [H|H].
  - now rewrite Z.min_l by lia.
  - rewrite Z.min_r by lia. rewrite Nat2Z.id.
    assert (forall m n t, (String.length t <= m)%nat -> (String.length t <= n)%nat ->
                          PyStr.take m t = PyStr.take n t) as T.
    { intros m n t; revert m n; induction t as [|a t IH]; intros [|m] [|n] L1 L2;
        simpl in *; try reflexivity; try lia.
      f_equal. apply IH; lia. }
    apply T; lia.
Qed.

(** Where [rfind] finds the character, the string splits there and the
    character does not occur behind. *)
Lemma rfind_found (s : string) (c : ascii) :
  0 <= rfind s c ->
  exists rest, PyStr.drop (Z.to_nat (rfind s c)) s = String c rest /\
               mem c rest = false.
Proof.
  induction s as [|a s IH]; simpl.
  - lia.
  - pose proof (rfind_bounds s c) as B.
    destruct (0 <=? rfind s c) eqn:E.
    + apply Z.leb_le in E. intros _.
      replace (Z.to_nat (rfind s c + 1)) with (S (Z.to_nat (rfind s c))) by lia.
      simpl. now apply IH.
    + apply Z.leb_gt in E. destruct (Ascii.eqb_spec a c) as [->|N]; [|lia].
      intros _. simpl. exists s. split; [reflexivity|].
      apply rfind_absent. lia.
Qed.

(** Behind the last occurrence there is no further one. *)
Lemma rfind_behind (s : string) (c : ascii) :
  mem c (PyStr.drop (Z.to_nat (rfind s c + 1)) s) = false.
Proof.
  pose proof (rfind_bounds s c) as B.
  destruct (Z.eq_dec (rfind s c) (-1)) as [E|N].
  - rewrite E. simpl. now apply rfind_absent.
  - destruct (rfind_found s c) as (rest & D & M); [lia|].
    replace (Z.to_nat (rfind s c + 1)) with (S (Z.to_nat (rfind s c))) by lia.
    assert (forall n t a r, PyStr.drop n t = String a r -> PyStr.drop (S n) t = r) as Sd.
    { intros n; induction n as [|n IHn]; intros [|b t] a r H; simpl in *;
        try discriminate.
      - now inversion H.
      - now apply IHn in H. }
    now rewrite (Sd _ _ _ _ D).
Qed.

Lemma lower_char_dot (a : ascii) : lower_char a = "."%char <-> a = "."%char.
Proof.
  destruct a as [[] [] [] [] [] [] [] []]; vm_compute; split; congruence.
Qed.

Lemma lower_keeps_dotless (s : string) :
  mem "." s = false -> lstrip (lower s) "." = lower s.
Proof.
  destruct s as [|a s]; cbn [lower lstrip mem]; [reflexivity|].
  intros H. apply orb_false_iff in H as [H _].
  apply Ascii.eqb_neq in H.
  destruct (Ascii.eqb_spec "." (lower_char a)) as [E|_]; [|reflexivity].
  symmetry in E. apply (proj1 (lower_char_dot a)) in E. congruence.
Qed.

End StringFacts.

(** ** Metadata extraction *)

Section Metadata.

Lemma slice_to_0 (p : string) : slice p None (Some 0) = "".
Proof. rewrite slice_to by lia. now destruct p. Qed.

(** The extension [splitext] yields is empty or is one dot followed by
    characters that are no dots. *)
Lemma splitext_extension (p : string) :
  snd (posixpath.splitext p) = "" \/
  exists rest, snd (posixpath.splitext p) = String "." rest /\
               mem "." rest = false.
Proof.
  unfold posixpath.splitext.
  destruct (_ && _) eqn:C; simpl snd.
  - right. apply andb_true_iff in C as [C _]. apply Z.ltb_lt in C.
    pose proof (rfind_bounds p posixpath.sep).
    rewrite slice_from by lia. apply rfind_found.
    unfold posixpath.extsep in C. lia.
  - left. apply slice_to_0.
Qed.

Lemma get_file_extension_unfold (p : string) :
  get_file_extension p =
  let extension := snd (posixpath.splitext p) in
  if truthy extension then Some (lower extension) else None.
Proof. unfold get_file_extension. now destruct (posixpath.splitext p). Qed.

(** A base name that is a dot and a dotless rest has no stem to split
    an extension from. *)
Lemma splitext_dotfile (p rest : string) :
  posixpath.basename p = String "." rest ->
  mem "." rest = false ->
  posixpath.splitext p = (p, "").
Proof.
  intros B R. unfold posixpath.basename in B.
  pose proof (rfind_bounds p posixpath.sep) as Bs.
  rewrite slice_from in B by lia.
  set (i := rfind p posixpath.sep) in *.
  assert (rfind p posixpath.extsep = i + 1) as D.
  { rewrite <- (take_drop (Z.to_nat (i + 1)) p) at 1.
    rewrite rfind_app, B. cbn [rfind].
    apply rfind_absent in R. unfold posixpath.extsep. rewrite R.
    cbn. unfold len. rewrite take_length. unfold len in Bs. lia. }
  unfold posixpath.splitext. fold i. rewrite D.
  replace (Z.to_nat (i + 1 - (i + 1))) with 0%nat by lia.
  cbn [posixpath.has_stem]. rewrite andb_false_r.
  now rewrite slice_to_0.
Qed.

End Metadata.

(** C5. [get_file_format] is absent when [splitext] yields no extension;
    otherwise the extension is a dot followed by dotless characters, and
    the format is [jpeg] for [.jpg], [tiff] for [.tif], and for every
    other extension the lower-cased extension without its leading dot. In
    particular the format of [a.JPG] is [jpeg]. *)
Theorem get_file_format_spec (file_path : string) :
  let extension := snd (posixpath.splitext file_path) in
  (extension = "" \/
   exists rest, extension = String "." rest /\ mem "." rest = false) /\
  get_file_format file_path = format_of_extension extension /\
  (get_file_format file_path = None <-> extension = "") /\
  get_file_format "a.JPG" = Some "jpeg".
Proof.
  intros extension.
  pose proof (splitext_extension file_path) as E. fold extension in E.
  split; [exact E|].
  assert (get_file_format file_path = format_of_extension extension) as F.
  { unfold get_file_format. rewrite get_file_extension_unfold.
    fold extension. cbv zeta.
    destruct E as [-> | (rest & -> & R)]; [reflexivity|].
    unfold format_of_extension.
    change (lower (String "." rest)) with (String "." (lower rest)).
    cbn [truthy negb].
    change (String.eqb (String "." rest) "") with false. cbv iota.
    set (ext := String "." (lower rest)).
    cbn [dict_get].
    rewrite (String.eqb_sym ".jpg"), (String.eqb_sym ".tif").
    destruct (String.eqb ext ".jpg"); [reflexivity|].
    destruct (String.eqb ext ".tif"); [reflexivity|].
    subst ext.
    change (lstrip (String "." (lower rest)) ".") with (lstrip (lower rest) ".").
    change (PyStr.drop 1 (String "." (lower rest))) with (lower rest).
    now rewrite lower_keeps_dotless. }
  split; [exact F|]. split; [|reflexivity].
  rewrite F. unfold format_of_extension.
  destruct E as [-> | (rest & -> & R)].
  - split; reflexivity.
  - change (String.eqb (String "." rest) "") with false. cbv iota.
    split; [|discriminate].
    repeat match goal with |- context [if ?c then _ else _] => destruct c end;
      discriminate.
Qed.

(** C10. A base name that begins with a dot and has no further dot is
    taken whole: [get_file_name] returns it, leading dot included, and
    [get_file_extension] is absent. *)
Theorem dotfile_name_and_extension (file_path rest : string) :
  posixpath.basename file_path = String "." rest ->
  mem "." rest = false ->
  get_file_name file_path = Some (posixpath.basename file_path) /\
  get_file_extension file_path = None.
Proof.
  intros B R. split.
  - unfold get_file_name.
    rewrite (splitext_dotfile (posixpath.basename file_path) rest).
    + now rewrite B.
    + unfold posixpath.basename at 1.
      pose proof (rfind_bounds (posixpath.basename file_path) posixpath.sep) as Bs.
      assert (rfind (posixpath.basename file_path) posixpath.sep = -1) as N.
      { apply rfind_absent. unfold posixpath.basename.
        pose proof (rfind_bounds file_path posixpath.sep).
        rewrite slice_from by lia. apply rfind_behind. }
      rewrite N. change (-1 + 1) with 0. rewrite slice_from by lia.
      exact B.
    + exact R.
  - rewrite get_file_extension_unfold, (splitext_dotfile file_path rest B R).
    reflexivity.
Qed.

Lemma dotfile_name_and_extension_witness :
  get_file_name "/x/.gitignore" = Some ".gitignore" /\
  get_file_extension "/x/.gitignore" = None.
Proof.
  apply (dotfile_name_and_extension "/x/.gitignore" "gitignore"); reflexivity.
Defined.

(** ** The retry wrapper *)

Section RetryFacts.
Context {A : Type}.
Variable func : Callable A.
Variable args : list Value.
Variable kwargs : list (string * Value).
Variables retries delay : Z.

Local Abbreviation this_round :=
  (_error_handler_attempt func args retries delay kwargs).

Lemma error_handler_unfold :
  _error_handler func args retries delay kwargs = for_each (range retries) this_round.
Proof. reflexivity. Qed.

(** One round that succeeds. *)
Lemma round_success (attempt : Z) (w w1 : World) (result : A) :
  call func args kwargs w = (Ret result, w1) ->
  this_round attempt w =
  (Ret (Some result),
   if 0 <? attempt then record (success_entry func retries attempt) w1 else w1).
Proof.
  intros C. unfold _error_handler_attempt, try_except, bind. rewrite C.
  destruct (0 <? attempt); reflexivity.
Qed.

(** One round that fails. *)
Lemma round_failure (attempt : Z) (w w1 : World) (e : Exn) :
  0 <= delay ->
  call func args kwargs w = (Raise e, w1) ->
  this_round attempt w =
  if attempt <? retries - 1
  then (Ret None, record (Slept delay) (record (error_entry func retries attempt e) w1))
  else (Raise e, record (error_entry func retries attempt e) w1).
Proof.
  intros D C. unfold _error_handler_attempt, try_except, bind. rewrite C.
  unfold logger_debug, emit, time_sleep.
  replace (delay <? 0) with false by (symmetry; apply Z.ltb_ge; lia).
  destruct (attempt <? retries - 1); reflexivity.
Qed.

(** No attempt at all: the loop body never runs and the function falls
    off its end. *)
Lemma error_handler_no_attempt (w : World) :
  retries <= 0 ->
  _error_handler func args retries delay kwargs w = (Ret None, w).
Proof.
  intros R. rewrite error_handler_unfold. unfold range.
  replace (Z.to_nat retries) with 0%nat by lia. reflexivity.
Qed.

(** A first attempt that succeeds is the only one. *)
Lemma error_handler_first_try (w w1 : World) (result : A) :
  0 < retries ->
  call func args kwargs w = (Ret result, w1) ->
  _error_handler func args retries delay kwargs w = (Ret (Some result), w1).
Proof.
  intros R C. rewrite error_handler_unfold. unfold range.
  destruct (Z.to_nat retries) as [|n] eqn:N; [lia|].
  cbn [seq map for_each]. unfold bind at 1.
  now rewrite (round_success _ _ _ _ C).
Qed.

(** The rounds from attempt [k] on, [m] of them left. *)
Lemma for_each_attempts (w0 : World) (m k : nat) (w : World) :
  0 <= delay ->
  retries = Z.of_nat (k + m) ->
  (0 < m)%nat ->
  (forall o w1, call func args kwargs w = (o, w1) ->
                Attempts func args kwargs retries delay (S k) w0 o w1) ->
  exists (j : nat) (o : Outcome A) (w1 : World),
    (k < j <= k + m)%nat /\
    Attempts func args kwargs retries delay j w0 o w1 /\
    match o with
    | Ret result =>
        for_each (map Z.of_nat (seq k m)) this_round w =
        (Ret (Some result),
         if (1 <? j)%nat
         then record (success_entry func retries (Z.of_nat j - 1)) w1 else w1)
    | Raise e =>
        j = (k + m)%nat /\
        for_each (map Z.of_nat (seq k m)) this_round w =
        (Raise e, record (error_entry func retries (Z.of_nat j - 1) e) w1)
    end.
Proof.
  intros D. revert k w. induction m as [|m IH]; intros k w R M step; [lia|].
  destruct (call func args kwargs w) as [o w1] eqn:C.
  specialize (step o w1 eq_refl) as Att.
  assert (forall r : Outcome (option A) * World,
            (let '(o', w') := this_round (Z.of_nat k) w in
             match o' with
             | Ret (Some v) => (Ret (Some v), w')
             | Ret None => for_each (map Z.of_nat (seq (S k) m)) this_round w'
             | Raise e => (Raise e, w')
             end) = r ->
            for_each (map Z.of_nat (seq k (S m))) this_round w = r) as unroll.
  { intros r <-. cbn [seq map for_each]. unfold bind at 1.
    destruct (this_round (Z.of_nat k) w) as [[[v|]|e] w']; reflexivity. }
  destruct o as [result|e].
  - exists (S k), (Ret result), w1. split; [lia|]. split; [exact Att|].
    apply unroll. rewrite (round_success _ _ _ _ C).
    replace (Z.of_nat (S k) - 1) with (Z.of_nat k) by lia.
    destruct k as [|k]; reflexivity.
  - destruct (Z.of_nat k <? retries - 1) eqn:L.
    + pose proof L as L'. apply Z.ltb_lt in L'.
      destruct (IH (S k)
                  (record (Slept delay)
                     (record (error_entry func retries (Z.of_nat k) e) w1)))
        as (j & o & w2 & J & Att' & Res); [lia | lia | |].
      * intros o' w2 C'. eapply attempt_next; [exact Att|].
        replace (Z.of_nat (S k) - 1) with (Z.of_nat k) by lia. exact C'.
      * exists j, o, w2. split; [lia|]. split; [exact Att'|].
        destruct o as [result|e'].
        -- apply unroll. rewrite (round_failure _ _ _ _ D C), L. exact Res.
        -- destruct Res as [Ej Res]. split; [lia|].
           apply unroll. rewrite (round_failure _ _ _ _ D C), L. exact Res.
    + exists (S k), (Raise e), w1. split; [lia|]. split; [exact Att|].
      pose proof L as L'. apply Z.ltb_ge in L'. split; [lia|].
      apply unroll. rewrite (round_failure _ _ _ _ D C), L.
      now replace (Z.of_nat (S k) - 1) with (Z.of_nat k) by lia.
Qed.

(** An operation that fails the same way in every world with these
    files fails on every attempt, and the wrapper gives up. *)
Lemma for_each_steady_failure (e : Exn) (ev : Event) (w : World) :
  0 <= delay ->
  (forall w', same_files w w' ->
              call func args kwargs w' = (Raise e, record ev w')) ->
  forall (m k : nat) (w' : World),
    same_files w w' ->
    retries = Z.of_nat (k + m) ->
    (0 < m)%nat ->
    exists w'',
      for_each (map Z.of_nat (seq k m)) this_round w' = (Raise e, w'') /\
      same_files w w''.
Proof.
  intros D H. induction m as [|m IH]; intros k w' S R M; [lia|].
  cbn [seq map for_each]. unfold bind at 1.
  rewrite (round_failure _ _ _ _ D (H w' S)).
  destruct (Z.of_nat k <? retries - 1) eqn:L.
  - apply Z.ltb_lt in L. apply IH; [|lia|lia].
    destruct S as [F C]. split; [exact F | exact C].
  - eexists. split; [reflexivity|].
    destruct S as [F C]. split; [exact F | exact C].
Qed.

Lemma error_handler_steady_failure (e : Exn) (ev : Event) (w : World) :
  0 < retries ->
  0 <= delay ->
  (forall w', same_files w w' ->
              call func args kwargs w' = (Raise e, record ev w')) ->
  exists w',
    _error_handler func args retries delay kwargs w = (Raise e, w') /\
    same_files w w'.
Proof.
  intros R D H. rewrite error_handler_unfold. unfold range.
  apply (for_each_steady_failure e ev w D H (Z.to_nat retries) 0 w);
    [split; reflexivity | lia | lia].
Qed.

End RetryFacts.

(** C3. With a positive attempt count and a delay [time.sleep] accepts,
    the wrapper invokes the operation [k] times in a row, at least once
    and at most [retries] times (3 by default); all invocations but the
    last have raised. When the last one returns, the wrapper returns its
    result; when it raises, all [retries] attempts have been made and the
    wrapper raises that same, final exception. *)
Theorem error_handler_contract {A : Type} (func : Callable A)
    (args : list Value) (kwargs : list (string * Value))
    (retries delay : Z) (w : World) :
  0 < retries ->
  0 <= delay ->
  default_retries = 3 /\
  exists (k : nat) (o : Outcome A) (w1 : World),
    (1 <= k <= Z.to_nat retries)%nat /\
    Attempts func args kwargs retries delay k w o w1 /\
    match o with
    | Ret result =>
        _error_handler func args retries delay kwargs w =
        (Ret (Some result),
         if (1 <? k)%nat
         then record (success_entry func retries (Z.of_nat k - 1)) w1 else w1)
    | Raise e =>
        k = Z.to_nat retries /\
        _error_handler func args retries delay kwargs w =
        (Raise e, record (error_entry func retries (Z.of_nat k - 1) e) w1)
    end.
Proof.
  intros R D. split; [reflexivity|].
  destruct (for_each_attempts func args kwargs retries delay w (Z.to_nat retries) 0 w)
    as (j & o & w1 & J & Att & Res); [exact D | lia | lia | |].
  - intros o w1 C. now apply attempt_first.
  - exists j, o, w1. split; [lia|]. split; [exact Att|].
    rewrite error_handler_unfold. unfold range.
    destruct o as [result|e]; [exact Res|].
    destruct Res as [Ej Res]. split; [lia|]. exact Res.
Qed.

Lemma error_handler_contract_witness :
  0 < 3 /\ 0 <= 1 /\
  exists (k : nat) (o : Outcome string) (w1 : World),
    (1 <= k <= Z.to_nat 3)%nat /\
    Attempts Sample.flaky [] [] 3 1 k Sample.world o w1 /\
    match o with
    | Ret result =>
        _error_handler Sample.flaky [] 3 1 [] Sample.world =
        (Ret (Some result),
         if (1 <? k)%nat
         then record (success_entry Sample.flaky 3 (Z.of_nat k - 1)) w1 else w1)
    | Raise e =>
        k = Z.to_nat 3 /\
        _error_handler Sample.flaky [] 3 1 [] Sample.world =
        (Raise e, record (error_entry Sample.flaky 3 (Z.of_nat k - 1) e) w1)
    end.
Proof.
  split; [reflexivity|]. split; [discriminate|].
  apply (error_handler_contract Sample.flaky [] [] 3 1 Sample.world);
    [reflexivity | discriminate].
Defined.

(** The flaky sample fails once, is logged, waits, and succeeds on the
    second of three attempts. *)
Example flaky_second_attempt :
  fst (_error_handler Sample.flaky [] 3 1 [] Sample.world) = Ret (Some "done") /\
  trace (snd (_error_handler Sample.flaky [] 3 1 [] Sample.world)) =
  [ Called "flaky" [] [];
    Debug "Error on attempt 1/3 for flaky: not yet" "facefusion.filesystem";
    Slept 1;
    Called "flaky" [] [];
    Debug "Success on attempt 2/3 for flaky" "facefusion.filesystem" ].
Proof. split; vm_compute; reflexivity. Qed.

(** ** Running the monad *)

Section Running.
Context {A B : Type}.

Lemma bind_ret (m : M A) (f : A -> M B) (w w1 : World) (a : A) :
  m w = (Ret a, w1) -> bind m f w = f a w1.
Proof. intros E. unfold bind. now rewrite E. Qed.

Lemma bind_raise (m : M A) (f : A -> M B) (w w1 : World) (e : Exn) :
  m w = (Raise e, w1) -> bind m f w = (Raise e, w1).
Proof. intros E. unfold bind. now rewrite E. Qed.

End Running.

Section WorldFacts.

Lemma same_files_refl (w : World) : same_files w w.
Proof. split; reflexivity. Qed.

Lemma same_files_trans (w1 w2 w3 : World) :
  same_files w1 w2 -> same_files w2 w3 -> same_files w1 w3.
Proof. intros [F1 C1] [F2 C2]. split; congruence. Qed.

Lemma same_files_record (ev : Event) (w : World) : same_files w (record ev w).
Proof. split; reflexivity. Qed.

Lemma stat_same (w w' : World) (p : string) :
  same_files w w' -> stat w' p = stat w p.
Proof.
  intros [F C]. unfold stat, resolve, components. now rewrite F, C.
Qed.

Lemma isfile_same (w w' : World) (p : string) :
  same_files w w' -> isfile w' p = isfile w p.
Proof. intros S. unfold isfile. now rewrite (stat_same w w' p S). Qed.

Lemma isdir_same (w w' : World) (p : string) :
  same_files w w' -> isdir w' p = isdir w p.
Proof. intros S. unfold isdir. now rewrite (stat_same w w' p S). Qed.

(** A path that is looked up is not empty. *)
Lemma path_error_truthy (p : string) : path_error p = None -> truthy p = true.
Proof.
  unfold path_error. destruct (mem NUL p); [discriminate|].
  destruct (truthy p); [reflexivity | discriminate].
Qed.

Lemma resolve_path_error (w : World) (p : string) loc :
  resolve w p = inr loc -> path_error p = None.
Proof. unfold resolve. destruct (path_error p); [discriminate | reflexivity]. Qed.

Lemma resolve_truthy (w : World) (p : string) loc :
  resolve w p = inr loc -> truthy p = true.
Proof. intros R. exact (path_error_truthy p (resolve_path_error w p loc R)). Qed.

Lemma resolve_walk (w : World) (p : string) loc :
  resolve w p = inr loc <->
  (path_error p = None /\
   walk (fs w) (fst (components w p)) (snd (components w p)) = inr loc).
Proof.
  unfold resolve. destruct (path_error p).
  - split; [discriminate | intros [? _]; discriminate].
  - destruct (components w p) as [start comps]. cbn [fst snd]. split.
    + now intros ->.
    + now intros [_ ->].
Qed.


End WorldFacts.

(** ** Path predicates *)

Section Predicates.

Lemma is_file_run (p : string) (w : World) :
  is_file p w =
  (Ret (truthy p && isfile w p),
   if truthy p then record (Called "isfile" [VStr p] []) w else w).
Proof. destruct p; reflexivity. Qed.

Lemma is_directory_run (p : string) (w : World) :
  is_directory p w =
  (Ret (truthy p && isdir w p),
   if truthy p then record (Called "isdir" [VStr p] []) w else w).
Proof. destruct p; reflexivity. Qed.

Lemma holds_is_file (p : string) (w : World) :
  holds (is_file p) w = truthy p && isfile w p.
Proof. unfold holds. rewrite is_file_run. simpl. now destruct (_ && _). Qed.

Lemma holds_is_directory (p : string) (w : World) :
  holds (is_directory p) w = truthy p && isdir w p.
Proof. unfold holds. rewrite is_directory_run. simpl. now destruct (_ && _). Qed.

Lemma is_file_same (p : string) (w : World) :
  same_files w (snd (is_file p w)).
Proof.
  rewrite is_file_run. simpl. destruct (truthy p);
    [apply same_files_record | apply same_files_refl].
Qed.

Lemma is_directory_same (p : string) (w : World) :
  same_files w (snd (is_directory p w)).
Proof.
  rewrite is_directory_run. simpl. destruct (truthy p);
    [apply same_files_record | apply same_files_refl].
Qed.

Lemma holds_same_is_file (p : string) (w w' : World) :
  same_files w w' -> holds (is_file p) w' = holds (is_file p) w.
Proof. intros S. now rewrite !holds_is_file, (isfile_same w w' p S). Qed.

Lemma holds_same_is_directory (p : string) (w w' : World) :
  same_files w w' -> holds (is_directory p) w' = holds (is_directory p) w.
Proof. intros S. now rewrite !holds_is_directory, (isdir_same w w' p S). Qed.

End Predicates.

(** ** Media classification *)

Section Classification.
Variable choices : Choices.

Lemma audio_paths_unbound : "audio_paths" ∉ module_globals.
Proof. apply (bool_decide_eq_false_1 _). vm_compute. reflexivity. Qed.

Lemma is_media_type_run (p : string) (formats : list string) (w : World) :
  exists w',
    _is_media_type p formats w =
    (Ret (holds (is_file p) w && member (get_file_format p) formats), w') /\
    same_files w w'.
Proof.
  exists (snd (is_file p w)). split; [|apply is_file_same].
  unfold _is_media_type. rewrite holds_is_file.
  erewrite bind_ret by apply is_file_run. now rewrite is_file_run.
Qed.

(** A list comprehension over a predicate that reads the files only. *)
Lemma filter_comp_run (f : string -> M bool) (g : World -> string -> bool) :
  (forall p w, exists w', f p w = (Ret (g w p), w') /\ same_files w w') ->
  (forall p w w', same_files w w' -> g w' p = g w p) ->
  forall paths w,
  exists w', filter_comp f paths w = (Ret (List.filter (g w) paths), w') /\
             same_files w w'.
Proof.
  intros Hf Hg paths. induction paths as [|p paths IH]; intros w.
  - exists w. split; [reflexivity | apply same_files_refl].
  - destruct (Hf p w) as (w1 & E1 & S1).
    destruct (IH w1) as (w2 & E2 & S2).
    exists w2. split; [|eapply same_files_trans; eassumption].
    cbn [filter_comp List.filter].
    erewrite bind_ret by exact E1. erewrite bind_ret by exact E2.
    unfold ret. do 2 f_equal.
    assert (List.filter (g w1) paths = List.filter (g w) paths) as ->.
    { apply List.filter_ext. intros q. now apply Hg. }
    reflexivity.
Qed.

End Classification.

(** C1. On the empty list [has_audio], [has_image], [has_video],
    [are_audios] and [are_videos] return false and touch nothing.
    [are_images] does not: the list it tests for emptiness is named
    [audio_paths], a name bound nowhere, so [are_images] raises a
    [NameError] on every input, the empty list included. *)
Theorem empty_batch_predicates (choices : Choices) (w : World) :
  has_audio choices [] w = (Ret false, w) /\
  has_image choices [] w = (Ret false, w) /\
  has_video choices [] w = (Ret false, w) /\
  are_audios choices [] w = (Ret false, w) /\
  are_videos choices [] w = (Ret false, w) /\
  (exists e, are_images choices [] w = (Raise e, w) /\ kind e = NameError) /\
  (forall image_paths,
     exists e, are_images choices image_paths w = (Raise e, w) /\
               kind e = NameError).
Proof.
  repeat (split; [reflexivity|]).
  assert (forall image_paths,
            exists e, are_images choices image_paths w = (Raise e, w) /\
                      kind e = NameError) as H.
  { intros image_paths. eexists. split.
    - unfold are_images, global_truth.
      rewrite (bool_decide_eq_false_2 _ audio_paths_unbound). reflexivity.
    - reflexivity. }
  split; [apply H | exact H].
Qed.

(** C6. [filter_audio_paths] and [filter_image_paths] return, in the
    order given, exactly the paths for which [is_file] holds and whose
    format is in the configured list of the category; every path for
    which [is_file] holds names a regular file, so directories and
    missing paths are dropped; the empty list gives the empty list; the
    file system is left as it was. *)
Theorem filter_paths_spec (choices : Choices) (paths : list string) (w : World) :
  (exists w',
     filter_audio_paths choices paths w =
     (Ret (List.filter
             (fun p => holds (is_file p) w &&
                       member (get_file_format p) (audio_formats choices))
             paths), w') /\
     same_files w w') /\
  (exists w',
     filter_image_paths choices paths w =
     (Ret (List.filter
             (fun p => holds (is_file p) w &&
                       member (get_file_format p) (image_formats choices))
             paths), w') /\
     same_files w w') /\
  filter_audio_paths choices [] w = (Ret [], w) /\
  filter_image_paths choices [] w = (Ret [], w) /\
  Forall (fun p => exists content, stat w p = inr (File content))
    (List.filter (fun p => holds (is_file p) w) paths).
Proof.
  assert (forall formats,
            exists w',
              filter_comp (fun p => _is_media_type p formats) paths w =
              (Ret (List.filter
                      (fun p => holds (is_file p) w &&
                                member (get_file_format p) formats)
                      paths), w') /\
              same_files w w') as H.
  { intros formats.
    apply (filter_comp_run
             (fun p => _is_media_type p formats)
             (fun w p => holds (is_file p) w && member (get_file_format p) formats)).
    - intros p w0. apply is_media_type_run.
    - intros p w0 w' S. now rewrite (holds_same_is_file p w0 w' S). }
  split; [|split; [|repeat (split; [reflexivity|])]].
  - destruct paths as [|p ps]; [|apply H].
    exists w. split; [reflexivity | apply same_files_refl].
  - destruct paths as [|p ps]; [|apply H].
    exists w. split; [reflexivity | apply same_files_refl].
  - apply List.Forall_forall. intros p Hp. apply List.filter_In in Hp as [_ T].
    rewrite holds_is_file in T. apply andb_true_iff in T as [_ T].
    unfold isfile in T. destruct (stat w p) as [k|[content|]]; try discriminate.
    now exists content.
Qed.

(** On the sample world only [/p.JPG] is an image: [/d] is a directory,
    [/missing.png] does not exist, [/f] and [/d/a.txt] have no image
    format. *)
Example filter_image_paths_sample :
  fst (filter_image_paths Sample.choices
         ["/p.JPG"; "/d"; "/missing.png"; "/f"; "/d/a.txt"] Sample.world) =
  Ret ["/p.JPG"].
Proof. vm_compute. reflexivity. Qed.

(** ** Mutating operations *)

Section Mutating.

(** [os.remove] called with two positional arguments raises at once,
    whatever the world. *)
Lemma os_remove_two_arguments (src dest : Value) (w : World) :
  exists e,
    call os_remove [src; dest] [] w =
    (Raise e, record (Called "remove" [src; dest] []) w) /\
    kind e = TypeError.
Proof.
  eexists. split.
  - destruct src; reflexivity.
  - reflexivity.
Qed.

(** Three attempts, three failures: the retry wrapper gives up. *)
Lemma error_handler_remove (p : string) (w : World) :
  exists e w',
    _error_handler os_remove [VStr p; VNone] default_retries default_delay [] w =
    (Raise e, w') /\
    kind e = TypeError /\
    same_files w w' /\
    List.filter (is_call "remove")
      (List.skipn (List.length (trace w)) (trace w')) =
    [ Called "remove" [VStr p; VNone] [];
      Called "remove" [VStr p; VNone] [];
      Called "remove" [VStr p; VNone] [] ].
Proof.
  eexists _, _. split; [reflexivity|]. split; [reflexivity|].
  split; [split; reflexivity|].
  cbn [trace record]. rewrite <- !app_assoc.
  rewrite List.skipn_app, List.skipn_all, Nat.sub_diag. reflexivity.
Qed.

End Mutating.

(** C2. For a path that [is_file] rejects, [remove_file] returns false
    and leaves the files alone. For a path that [is_file] accepts it
    returns no boolean: [os.remove] is handed the unused destination
    [None] as a second positional argument, raises a [TypeError] on each
    of the three attempts, and the wrapper raises it to the caller; the
    file is still there. *)
Theorem remove_file_outcome (file_path : string) (w : World) :
  if holds (is_file file_path) w
  then exists e w',
         remove_file file_path w = (Raise e, w') /\
         kind e = TypeError /\
         same_files w w' /\
         holds (is_file file_path) w' = true
  else exists w',
         remove_file file_path w = (Ret false, w') /\
         same_files w w'.
Proof.
  rewrite holds_is_file.
  destruct (truthy file_path && isfile w file_path) eqn:F.
  - destruct (error_handler_remove file_path (snd (is_file file_path w)))
      as (e & w' & E & K & S & _).
    exists e, w'. unfold remove_file.
    erewrite bind_ret by apply is_file_run. rewrite F.
    unfold _file_operation.
    rewrite is_file_run in E. cbn [snd] in E.
    erewrite bind_raise by exact E.
    split; [reflexivity|]. split; [exact K|].
    assert (same_files w w') as S'.
    { eapply same_files_trans; [apply (is_file_same file_path) | exact S]. }
    split; [exact S'|].
    now rewrite (holds_same_is_file _ _ _ S'), holds_is_file.
  - exists (snd (is_file file_path w)). split; [|apply is_file_same].
    unfold remove_file. erewrite bind_ret by apply is_file_run.
    rewrite F, is_file_run. reflexivity.
Qed.

(** The regular file [/f] of the sample world cannot be removed. *)
Example remove_file_sample :
  fst (remove_file "/f" Sample.world) =
  Raise (MkExn TypeError "remove() takes exactly 1 positional argument") /\
  fs (snd (remove_file "/f" Sample.world)) !! ["f"] = Some (File "f").
Proof. split; vm_compute; reflexivity. Qed.

(** C8. When [is_file] rejects the source, [copy_file] returns false; the
    only thing it has done is that [is_file] check (nothing at all for an
    empty source): [shutil.copy] is not called, the file system is as it
    was, and the destination is a file afterwards only if it was one
    before. *)
Theorem copy_file_without_source (file_path move_path : string) (w : World) :
  holds (is_file file_path) w = false ->
  exists w',
    copy_file file_path move_path w = (Ret false, w') /\
    w' = (if truthy file_path
          then record (Called "isfile" [VStr file_path] []) w else w) /\
    fs w' = fs w /\
    stat w' move_path = stat w move_path /\
    holds (is_file move_path) w' = holds (is_file move_path) w.
Proof.
  intros H. rewrite holds_is_file in H.
  exists (snd (is_file file_path w)).
  pose proof (is_file_same file_path w) as S.
  split; [|split; [|split; [|split]]].
  - unfold copy_file. erewrite bind_ret by apply is_file_run.
    rewrite H, is_file_run. reflexivity.
  - now rewrite is_file_run.
  - apply S.
  - now apply stat_same.
  - now apply holds_same_is_file.
Qed.

Lemma copy_file_without_source_witness :
  holds (is_file "/missing") Sample.world = false /\
  exists w',
    copy_file "/missing" "/d/copy" Sample.world = (Ret false, w') /\
    w' = (if truthy "/missing"
          then record (Called "isfile" [VStr "/missing"] []) Sample.world
          else Sample.world) /\
    fs w' = fs Sample.world /\
    stat w' "/d/copy" = stat Sample.world "/d/copy" /\
    holds (is_file "/d/copy") w' = holds (is_file "/d/copy") Sample.world.
Proof.
  split; [vm_compute; reflexivity|].
  apply (copy_file_without_source "/missing" "/d/copy" Sample.world).
  vm_compute; reflexivity.
Defined.

(** ** Sorting and filtering *)

Section Sorting.

Lemma sorted_Sorted (xs : list string) : StronglySorted String.le (sorted xs).
Proof. unfold sorted. apply StronglySorted_merge_sort; apply _. Qed.

Lemma sorted_Permutation (xs : list string) : sorted xs ≡ₚ xs.
Proof. unfold sorted. apply merge_sort_Permutation. Qed.

Lemma filter_Permutation_bool {A} (f : A -> bool) (xs ys : list A) :
  xs ≡ₚ ys -> List.filter f xs ≡ₚ List.filter f ys.
Proof.
  induction 1 as [|x xs ys _ IH|x y xs|xs ys zs _ IH1 _ IH2]; cbn [List.filter].
  - reflexivity.
  - destruct (f x); [now constructor | exact IH].
  - destruct (f x), (f y); try reflexivity. apply perm_swap.
  - now transitivity (List.filter f ys).
Qed.

Lemma filter_StronglySorted {A} (R : relation A) (f : A -> bool) (xs : list A) :
  StronglySorted R xs -> StronglySorted R (List.filter f xs).
Proof.
  induction 1 as [|x xs _ IH H]; cbn [List.filter]; [constructor|].
  destruct (f x); [|exact IH].
  constructor; [exact IH|].
  apply List.Forall_forall. intros y Hy. apply List.filter_In in Hy as [Hy _].
  revert y Hy. now apply List.Forall_forall.
Qed.

Lemma visible_startswith (entry : string) :
  negb (startswith_any entry ["."; "__"]) = visible entry.
Proof.
  unfold visible, startswith_any. cbn [existsb]. now rewrite orb_false_r.
Qed.

End Sorting.

(** ** Directory and pattern resolution *)

Section Resolution.

Lemma resolve_same (w w' : World) (p : string) :
  same_files w w' -> resolve w' p = resolve w p.
Proof. intros [F C]. unfold resolve, components. now rewrite F, C. Qed.

Lemma os_listdir_run (p : string) (w : World) :
  isdir w p = true ->
  call os_listdir [VStr p] [] w =
  (Ret (listing w p), record (Called "listdir" [VStr p] []) w).
Proof.
  intros D. unfold isdir, stat in D. unfold listing.
  change (call os_listdir [VStr p] [] w) with
    (match resolve w p with
     | inl k => os_error k p (record (Called "listdir" [VStr p] []) w)
     | inr loc =>
         match node_at (fs w) loc with
         | Some Dir => ret (entries (fs w) loc) (record (Called "listdir" [VStr p] []) w)
         | Some (File _) =>
             os_error NotADirectoryError p (record (Called "listdir" [VStr p] []) w)
         | None =>
             os_error FileNotFoundError p (record (Called "listdir" [VStr p] []) w)
         end
     end).
  destruct (resolve w p) as [k|loc]; [discriminate|].
  destruct (node_at (fs w) loc) as [[c|]|]; try discriminate. reflexivity.
Qed.


End Resolution.

(** C7. [resolve_file_paths] returns the empty list when [is_directory]
    rejects the path. Otherwise it returns the entries [os.listdir]
    reports, those that start with [.] or [__] left out, in ascending
    order, each joined to the directory path; the file system is left as
    it was. On the sample directory [/d], which holds [.git],
    [__pycache__], [a.txt] and [b.txt], the result is [/d/a.txt],
    [/d/b.txt]. *)
Theorem resolve_file_paths_spec (directory_path : string) (w : World) :
  let names := List.filter visible (sorted (listing w directory_path)) in
  (exists w',
     resolve_file_paths directory_path w =
     (Ret (if holds (is_directory directory_path) w
           then map (posixpath.join directory_path) names
           else []), w') /\
     same_files w w') /\
  StronglySorted String.le names /\
  names ≡ₚ List.filter visible (listing w directory_path) /\
  Forall (fun entry => startswith entry "." = false /\
                       startswith entry "__" = false) names /\
  listing Sample.world "/d" ≡ₚ [".git"; "__pycache__"; "a.txt"; "b.txt"] /\
  fst (resolve_file_paths "/d" Sample.world) = Ret ["/d/a.txt"; "/d/b.txt"].
Proof.
  intros names. split; [|split; [|split; [|split; [|split]]]].
  - unfold resolve_file_paths.
    erewrite bind_ret by apply is_directory_run.
    rewrite holds_is_directory.
    set (w1 := if truthy directory_path
               then record (Called "isdir" [VStr directory_path] []) w else w).
    assert (same_files w w1) as S1
      by (subst w1; destruct (truthy directory_path);
          [apply same_files_record | apply same_files_refl]).
    destruct (truthy directory_path && isdir w directory_path) eqn:D; cbn [negb].
    + apply andb_true_iff in D as [_ D].
      rewrite <- (isdir_same _ _ _ S1) in D.
      exists (record (Called "listdir" [VStr directory_path] []) w1).
      split; [|eapply same_files_trans; [exact S1 | apply same_files_record]].
      erewrite bind_ret
        by (apply error_handler_first_try;
            [reflexivity | apply (os_listdir_run _ _ D)]).
      cbn [iterable]. erewrite bind_ret by reflexivity.
      unfold ret. do 3 f_equal. subst names.
      assert (listing w1 directory_path = listing w directory_path) as ->.
      { unfold listing. rewrite (resolve_same _ _ _ S1).
        destruct S1 as [-> _]. reflexivity. }
      apply List.filter_ext. intros entry. apply visible_startswith.
    + exists w1. split; [reflexivity | exact S1].
  - apply filter_StronglySorted, sorted_Sorted.
  - apply filter_Permutation_bool, sorted_Permutation.
  - apply List.Forall_forall. intros entry H.
    apply List.filter_In in H as [_ V]. unfold visible in V.
    apply negb_true_iff, orb_false_iff in V. exact V.
  - rewrite <- (sorted_Permutation (listing Sample.world "/d")).
    vm_compute. reflexivity.
  - vm_compute. reflexivity.
Qed.


(** A pattern whose literal directory does not exist resolves to nothing,
    although a file of that name pattern exists under [/d]. *)
Example resolve_file_pattern_sample :
  fst (resolve_file_pattern glob_literal "/d/a.txt" Sample.world) = Ret ["/d/a.txt"] /\
  fst (resolve_file_pattern glob_literal "/e/a.txt" Sample.world) = Ret [] /\
  fst (resolve_file_pattern glob_literal "/d" Sample.world) = Ret [].
Proof. repeat split; vm_compute; reflexivity. Qed.

(** ** Walking a path *)

Section Walking.
Implicit Types (m : gmap (list string) Node) (cur loc : list string).
Implicit Types (comps : list string).

Lemma step_empty cur : step cur "" = cur.
Proof. reflexivity. Qed.

(** An empty component keeps a walk where it is. *)
Lemma walk_cons_empty m cur comps :
  node_at m cur = Some Dir -> walk m cur ("" :: comps) = walk m cur comps.
Proof. intros N. cbn [walk]. now rewrite N. Qed.

(** One step of a walk that goes on. *)
Lemma walk_cons m cur c comps loc :
  walk m cur (c :: comps) = inr loc ->
  node_at m cur = Some Dir /\
  (NAME_MAX <? encoded_length c) = false /\
  walk m (step cur c) comps = inr loc.
Proof.
  cbn [walk]. destruct (node_at m cur) as [[x|]|]; try discriminate.
  destruct (NAME_MAX <? encoded_length c); [discriminate|]. now repeat split.
Qed.

Lemma walk_cons_step m cur c comps :
  node_at m cur = Some Dir ->
  (NAME_MAX <? encoded_length c) = false ->
  walk m cur (c :: comps) = walk m (step cur c) comps.
Proof. intros N L. cbn [walk]. now rewrite N, L. Qed.

(** A walk in two parts. *)
Lemma walk_app m comps : forall cur more,
  walk m cur (comps ++ more) =
  match walk m cur comps with
  | inl k => inl k
  | inr loc => walk m loc more
  end.
Proof.
  induction comps as [|c rest IH]; intros cur more; [reflexivity|].
  cbn [app walk]. destruct (node_at m cur) as [[x|]|]; try reflexivity.
  destruct (NAME_MAX <? encoded_length c); [reflexivity | apply IH].
Qed.

(** Trailing empty components keep a walk where it is. *)
Lemma walk_empty_tail comps : forall m cur,
  strip_empty_tail comps = [] ->
  node_at m cur = Some Dir ->
  walk m cur comps = inr cur.
Proof.
  induction comps as [|c rest IH]; intros m cur S N; [reflexivity|].
  cbn [strip_empty_tail] in S.
  destruct (strip_empty_tail rest) eqn:R; [|discriminate].
  destruct (bool_decide (c = "")) eqn:C; [|discriminate].
  apply bool_decide_eq_true_1 in C. subst c.
  rewrite walk_cons_empty by exact N. now apply IH.
Qed.


End Walking.

(** * Further properties *)

(** ** More on strings *)

Section MoreStringFacts.

Lemma app_empty_r (s : string) : s +:+ "" = s.
Proof. induction s as [|a s IH]; [reflexivity|]. now rewrite app_cons, IH. Qed.


Lemma drop_length (n : nat) (s : string) :
  String.length (PyStr.drop n s) = (String.length s - n)%nat.
Proof.
  revert s; induction n as [|n IH]; intros [|a s]; simpl; try reflexivity; try lia.
  apply IH.
Qed.

Lemma drop_app_le (n : nat) (s t : string) :
  (n <= String.length s)%nat ->
  PyStr.drop n (s +:+ t) = PyStr.drop n s +:+ t.
Proof.
  revert s; induction n as [|n IH]; intros [|a s] L; simpl in *; try reflexivity; try lia.
  apply IH. lia.
Qed.

Lemma take_0 (s : string) : PyStr.take 0 s = "".
Proof. now destruct s. Qed.

Lemma take_app_le (n : nat) (s t : string) :
  (n <= String.length s)%nat ->
  PyStr.take n (s +:+ t) = PyStr.take n s.
Proof.
  revert s; induction n as [|n IH]; intros s L.
  - now rewrite !take_0.
  - destruct s as [|a s]; simpl in L; [lia|].
    rewrite app_cons. cbn [PyStr.take]. f_equal. apply IH. lia.
Qed.

Lemma take_all (n : nat) (s : string) :
  (String.length s <= n)%nat -> PyStr.take n s = s.
Proof.
  revert n; induction s as [|a s IH]; intros [|n] L; simpl in *; try reflexivity; try lia.
  f_equal. apply IH. lia.
Qed.

Lemma drop_drop (n k : nat) (s : string) :
  PyStr.drop n (PyStr.drop k s) = PyStr.drop (k + n) s.
Proof.
  revert s; induction k as [|k IH]; intros s; [reflexivity|].
  destruct s as [|a s]; [now destruct n|]. cbn [PyStr.drop Nat.add]. apply IH.
Qed.

Lemma mem_app (c : ascii) (s t : string) :
  mem c (s +:+ t) = mem c s || mem c t.
Proof.
  induction s as [|a s IH]; [reflexivity|].
  rewrite app_cons. cbn [mem]. rewrite IH. now rewrite orb_assoc.
Qed.

Lemma mem_drop (c : ascii) (n : nat) (s : string) :
  mem c s = false -> mem c (PyStr.drop n s) = false.
Proof.
  intros H. rewrite <- (take_drop n s), mem_app in H.
  now apply orb_false_iff in H as [_ H].
Qed.

Lemma mem_take (c : ascii) (n : nat) (s : string) :
  mem c s = false -> mem c (PyStr.take n s) = false.
Proof.
  intros H. rewrite <- (take_drop n s), mem_app in H.
  now apply orb_false_iff in H as [H _].
Qed.

Lemma lower_char_idempotent (a : ascii) : lower_char (lower_char a) = lower_char a.
Proof. destruct a as [[] [] [] [] [] [] [] []]; vm_compute; reflexivity. Qed.

Lemma lower_idempotent (s : string) : lower (lower s) = lower s.
Proof.
  induction s as [|a s IH]; [reflexivity|].
  cbn [lower]. now rewrite lower_char_idempotent, IH.
Qed.

Lemma lower_char_sep (a : ascii) : lower_char a = "/"%char <-> a = "/"%char.
Proof.
  destruct a as [[] [] [] [] [] [] [] []]; vm_compute; split; congruence.
Qed.

Lemma lower_mem_dot (s : string) : mem "." (lower s) = mem "." s.
Proof.
  induction s as [|a s IH]; [reflexivity|].
  cbn [lower mem]. rewrite IH. f_equal.
  destruct (Ascii.eqb_spec (lower_char a) ".") as [E|N],
           (Ascii.eqb_spec a ".") as [E'|N']; try reflexivity.
  - apply (proj1 (lower_char_dot a)) in E. contradiction.
  - apply (proj2 (lower_char_dot a)) in E'. contradiction.
Qed.

Lemma lower_mem_sep (s : string) : mem "/" (lower s) = mem "/" s.
Proof.
  induction s as [|a s IH]; [reflexivity|].
  cbn [lower mem]. rewrite IH. f_equal.
  destruct (Ascii.eqb_spec (lower_char a) "/") as [E|N],
           (Ascii.eqb_spec a "/") as [E'|N']; try reflexivity.
  - apply (proj1 (lower_char_sep a)) in E. contradiction.
  - apply (proj2 (lower_char_sep a)) in E'. contradiction.
Qed.

(** The slice [s[i:j]] for indices in range. *)
Lemma slice_between (s : string) (i j : Z) :
  0 <= i -> i <= j -> j <= len s ->
  slice s (Some i) (Some j) =
  PyStr.take (Z.to_nat (j - i)) (PyStr.drop (Z.to_nat i) s).
Proof.
  intros Hi Hj Hl. unfold slice, bound; simpl.
  replace (i <? 0) with false by (symmetry; apply Z.ltb_ge; lia).
  replace (j <? 0) with false by (symmetry; apply Z.ltb_ge; lia).
  rewrite !Z.min_l by lia. f_equal. lia.
Qed.

(** The loop of [splitext] looks for a character other than a dot in
    the [n] characters from [k] on. *)
Lemma has_stem_spec (p : string) (n : nat) : forall k : Z,
  0 <= k -> k + Z.of_nat n <= len p ->
  posixpath.has_stem p k n =
  negb (all_char (PyStr.take n (PyStr.drop (Z.to_nat k) p)) ".").
Proof.
  induction n as [|n IH]; intros k Hk Hl; [reflexivity|].
  cbn [posixpath.has_stem].
  rewrite slice_between by lia.
  replace (Z.to_nat (k + 1 - k)) with 1%nat by lia.
  rewrite IH by lia.
  replace (Z.to_nat (k + 1)) with (S (Z.to_nat k)) by lia.
  pose proof (drop_length (Z.to_nat k) p) as L. unfold len in Hl.
  destruct (PyStr.drop (Z.to_nat k) p) as [|a q] eqn:D;
    [simpl in L; lia|].
  assert (PyStr.drop (S (Z.to_nat k)) p = q) as ->.
  { replace (S (Z.to_nat k)) with (Z.to_nat k + 1)%nat by lia.
    now rewrite <- (drop_drop 1 (Z.to_nat k) p), D. }
  cbn [PyStr.take all_char]. unfold posixpath.extsep.
  change (String.eqb (String a "") ".") with (Ascii.eqb a "." && true).
  rewrite andb_true_r.
  destruct (Ascii.eqb a "."); reflexivity.
Qed.

End MoreStringFacts.

(** ** Names and extensions *)

Section NamesAndExtensions.

Lemma basename_unfold (p : string) :
  posixpath.basename p = PyStr.drop (Z.to_nat (rfind p posixpath.sep + 1)) p.
Proof.
  unfold posixpath.basename. pose proof (rfind_bounds p posixpath.sep).
  now rewrite slice_from by lia.
Qed.

Lemma basename_no_sep (p : string) : mem "/" (posixpath.basename p) = false.
Proof. rewrite basename_unfold. apply rfind_behind. Qed.

(** [root + ext == path]. *)
Lemma splitext_recombine (q : string) :
  fst (posixpath.splitext q) +:+ snd (posixpath.splitext q) = q.
Proof.
  unfold posixpath.splitext.
  destruct (_ && _) eqn:C; cbn [fst snd].
  - apply andb_true_iff in C as [C _]. apply Z.ltb_lt in C.
    pose proof (rfind_bounds q posixpath.sep).
    rewrite slice_to, slice_from by lia. apply take_drop.
  - rewrite slice_to_0. apply app_empty_r.
Qed.

(** What [splitext] yields, in terms of the last separator and the last
    dot. *)
Lemma splitext_unfold (q : string) :
  let i := rfind q posixpath.sep in
  let d := rfind q posixpath.extsep in
  posixpath.splitext q =
  if (i <? d) &&
     negb (all_char (PyStr.take (Z.to_nat (d - (i + 1)))
                       (PyStr.drop (Z.to_nat (i + 1)) q)) ".")
  then (PyStr.take (Z.to_nat d) q, PyStr.drop (Z.to_nat d) q)
  else (q, "").
Proof.
  intros i d. unfold posixpath.splitext. fold i d.
  pose proof (rfind_bounds q posixpath.sep) as Bi. fold i in Bi.
  pose proof (rfind_bounds q posixpath.extsep) as Bd. fold d in Bd.
  destruct (i <? d) eqn:L; cbn [andb]; [|now rewrite slice_to_0].
  apply Z.ltb_lt in L.
  rewrite has_stem_spec by lia.
  destruct (negb _); [|now rewrite slice_to_0].
  now rewrite slice_to, slice_from by lia.
Qed.

(** The extension is that of the base name: directories play no part. *)
Lemma splitext_basename (p : string) :
  snd (posixpath.splitext p) = snd (posixpath.splitext (posixpath.basename p)).
Proof.
  rewrite (splitext_unfold p), (splitext_unfold (posixpath.basename p)).
  cbv zeta. unfold posixpath.sep, posixpath.extsep.
  pose proof (basename_no_sep p) as NS. apply rfind_absent in NS.
  rewrite NS. change (-1 + 1) with 0. change (Z.to_nat 0) with 0%nat.
  assert (forall s, PyStr.drop 0 s = s) as D0 by (now intros []).
  rewrite D0.
  pose proof (rfind_bounds p "/") as Bi.
  assert (PyStr.drop (Z.to_nat (rfind p "/" + 1)) p = posixpath.basename p) as Db
    by now rewrite basename_unfold.
  set (i := rfind p "/") in *.
  set (b := posixpath.basename p) in *.
  assert (len (PyStr.take (Z.to_nat (i + 1)) p) = i + 1) as La
    by (unfold len in *; rewrite take_length; lia).
  assert (rfind p "." =
          if 0 <=? rfind b "."
          then i + 1 + rfind b "."
          else rfind (PyStr.take (Z.to_nat (i + 1)) p) ".") as Rd.
  { rewrite <- (take_drop (Z.to_nat (i + 1)) p) at 1.
    rewrite rfind_app, Db, La. reflexivity. }
  pose proof (rfind_bounds b ".") as Bd.
  set (d := rfind b ".") in *.
  destruct (0 <=? d) eqn:Pd.
  - apply Z.leb_le in Pd. rewrite Rd, Db.
    replace (i <? i + 1 + d) with true by (symmetry; apply Z.ltb_lt; lia).
    replace (-1 <? d) with true by (symmetry; apply Z.ltb_lt; lia).
    replace (i + 1 + d - (i + 1)) with d by lia.
    replace (d - 0) with d by lia.
    cbn [andb]. destruct (negb _); [|reflexivity].
    cbn [snd]. rewrite <- Db, drop_drop. f_equal. lia.
  - apply Z.leb_gt in Pd.
    pose proof (rfind_bounds (PyStr.take (Z.to_nat (i + 1)) p) ".") as Ba.
    rewrite La in Ba. rewrite Rd.
    replace (i <? _) with false by (symmetry; apply Z.ltb_ge; lia).
    replace (-1 <? d) with false by (symmetry; apply Z.ltb_ge; lia).
    reflexivity.
Qed.

Lemma get_file_format_unfold (p : string) :
  get_file_format p = format_of_extension (snd (posixpath.splitext p)).
Proof.
  unfold get_file_format. rewrite get_file_extension_unfold. cbv zeta.
  destruct (splitext_extension p) as [-> | (rest & -> & R)]; [reflexivity|].
  unfold format_of_extension.
  change (lower (String "." rest)) with (String "." (lower rest)).
  cbn [truthy negb].
  change (String.eqb (String "." rest) "") with false. cbv iota.
  set (ext := String "." (lower rest)).
  cbn [dict_get].
  rewrite (String.eqb_sym ".jpg"), (String.eqb_sym ".tif").
  destruct (String.eqb ext ".jpg"); [reflexivity|].
  destruct (String.eqb ext ".tif"); [reflexivity|].
  subst ext.
  change (lstrip (String "." (lower rest)) ".") with (lstrip (lower rest) ".").
  change (PyStr.drop 1 (String "." (lower rest))) with (lower rest).
  now rewrite lower_keeps_dotless.
Qed.

End NamesAndExtensions.

(** X1. Extension and format are read off the base name alone: the
    directories of a path, dots in their names included, play no part. *)
Theorem extension_of_basename (file_path : string) :
  get_file_extension file_path =
    get_file_extension (posixpath.basename file_path) /\
  get_file_format file_path =
    get_file_format (posixpath.basename file_path).
Proof.
  split.
  - now rewrite !get_file_extension_unfold, <- splitext_basename.
  - now rewrite !get_file_format_unfold, <- splitext_basename.
Qed.

Section NameFacts.

Lemma get_file_name_unfold (p : string) :
  get_file_name p =
  let name := fst (posixpath.splitext (posixpath.basename p)) in
  if truthy name then Some name else None.
Proof.
  unfold get_file_name. now destruct (posixpath.splitext (posixpath.basename p)).
Qed.

Lemma truthy_default (s : string) :
  from_option id "" (if truthy s then Some s else None) = s.
Proof. now destruct s. Qed.

(** The root [splitext] yields is empty for the empty string only. *)
Lemma splitext_root_empty (q : string) :
  fst (posixpath.splitext q) = "" -> q = "".
Proof.
  rewrite splitext_unfold. cbv zeta.
  pose proof (rfind_bounds q posixpath.sep) as Bi.
  pose proof (rfind_bounds q posixpath.extsep) as Bd.
  set (i := rfind q posixpath.sep) in *.
  set (d := rfind q posixpath.extsep) in *.
  destruct (_ && _) eqn:C; cbn [fst]; [|easy].
  apply andb_true_iff in C as [L C]. apply Z.ltb_lt in L.
  destruct (Z.to_nat d) as [|n] eqn:N.
  - assert (d = i + 1) as -> by lia.
    replace (Z.to_nat (i + 1 - (i + 1))) with 0%nat in C by lia.
    rewrite take_0 in C. discriminate.
  - unfold len in Bd. destruct q as [|a q]; [reflexivity|]. discriminate.
Qed.

End NameFacts.

(** X2. Name and extension take the base name apart: the base name is the
    name followed by the extension as it is written, which is nothing or
    one dot followed by characters other than dots; the extension
    reported is the written one in lower case, and it is absent exactly
    when nothing is written. *)
Theorem name_and_extension_partition (file_path : string) :
  let name := from_option id "" (get_file_name file_path) in
  let extension := from_option id "" (get_file_extension file_path) in
  exists written,
    posixpath.basename file_path = name +:+ written /\
    extension = lower written /\
    (get_file_extension file_path = None <-> written = "") /\
    (written = "" \/
     exists rest, written = String "." rest /\ mem "." rest = false).
Proof.
  intros name extension.
  exists (snd (posixpath.splitext file_path)).
  subst name extension.
  rewrite get_file_name_unfold, get_file_extension_unfold. cbv zeta.
  rewrite !truthy_default.
  split; [|split; [|split]].
  - rewrite splitext_basename. symmetry. apply splitext_recombine.
  - destruct (snd (posixpath.splitext file_path)); reflexivity.
  - destruct (snd (posixpath.splitext file_path)); cbn [truthy];
      split; congruence.
  - apply splitext_extension.
Qed.

(** X3. [get_file_name] is absent exactly when the base name is empty,
    that is for the empty path and for a path that ends in a separator. A
    name that is present is not empty and holds no separator. *)
Theorem file_name_absent_iff (file_path : string) :
  (get_file_name file_path = None <-> posixpath.basename file_path = "") /\
  (forall name, get_file_name file_path = Some name ->
                name <> "" /\ mem "/" name = false).
Proof.
  rewrite get_file_name_unfold. cbv zeta.
  set (b := posixpath.basename file_path).
  split.
  - split.
    + intros H. apply splitext_root_empty.
      destruct (fst (posixpath.splitext b)); [reflexivity | discriminate].
    + intros ->. reflexivity.
  - intros name H.
    destruct (fst (posixpath.splitext b)) as [|a r] eqn:R; [discriminate|].
    cbn [truthy] in H. inversion H; subst name. split; [discriminate|].
    pose proof (splitext_recombine b) as Rc. rewrite R in Rc.
    pose proof (basename_no_sep file_path) as NS. fold b in NS.
    rewrite <- Rc, mem_app in NS. now apply orb_false_iff in NS as [NS _].
Qed.

Section ExtensionFacts.

(** The extension as written: a dot, then characters that are neither
    dots nor separators. *)
Lemma splitext_extension_shape (p : string) :
  snd (posixpath.splitext p) = "" \/
  exists rest, snd (posixpath.splitext p) = String "." rest /\
               mem "." rest = false /\ mem "/" rest = false.
Proof.
  destruct (splitext_extension p) as [E | (rest & E & R)]; [now left|].
  right. exists rest. split; [exact E|]. split; [exact R|].
  pose proof (basename_no_sep p) as NS.
  rewrite <- (splitext_recombine (posixpath.basename p)), mem_app in NS.
  apply orb_false_iff in NS as [_ NS].
  rewrite <- splitext_basename, E in NS.
  cbn [mem] in NS. now apply orb_false_iff in NS as [_ NS].
Qed.

(** A stem, a dot and a dotless extension are split at that dot. *)
Lemma splitext_stem_extension (pre ext : string) :
  stemmed pre = true ->
  mem "." ext = false ->
  mem "/" ext = false ->
  posixpath.splitext (pre +:+ String "." ext) = (pre, String "." ext).
Proof.
  intros St Nd Ns. rewrite splitext_unfold. cbv zeta.
  unfold posixpath.sep, posixpath.extsep.
  assert (rfind (String "." ext) "/" = -1) as Rs
    by (apply rfind_absent; cbn [mem]; now rewrite Ns).
  assert (rfind (String "." ext) "." = 0) as Rd
    by (apply rfind_absent in Nd; cbn [rfind]; now rewrite Nd).
  rewrite !rfind_app, Rs, Rd. cbn [Z.leb Z.compare].
  pose proof (rfind_bounds pre "/") as Bi.
  set (i := rfind pre "/") in *.
  replace (i <? len pre + 0) with true by (symmetry; apply Z.ltb_lt; lia).
  unfold len in *.
  replace (Z.to_nat (Z.of_nat (String.length pre) + 0)) with (String.length pre) by lia.
  replace (Z.to_nat (Z.of_nat (String.length pre) + 0 - (i + 1)))
    with (String.length pre - Z.to_nat (i + 1))%nat by lia.
  rewrite drop_app_le by lia.
  rewrite take_app_le by (rewrite drop_length; lia).
  rewrite take_all by (rewrite drop_length; lia).
  unfold stemmed in St. rewrite basename_unfold in St.
  unfold posixpath.sep in St. fold i in St.
  rewrite St. cbn [andb].
  rewrite take_app_le, take_all, drop_app_le by lia.
  assert (forall n s, (String.length s <= n)%nat -> PyStr.drop n s = "") as Dall.
  { intros n; induction n as [|n IH]; intros [|a s] L; simpl in *;
      try reflexivity; try lia. apply IH. lia. }
  now rewrite Dall by lia.
Qed.

Lemma basename_stem_extension (pre ext : string) :
  mem "/" ext = false ->
  posixpath.basename (pre +:+ String "." ext) =
  posixpath.basename pre +:+ String "." ext.
Proof.
  intros Ns. rewrite !basename_unfold. unfold posixpath.sep.
  assert (rfind (String "." ext) "/" = -1) as Rs
    by (apply rfind_absent; cbn [mem]; now rewrite Ns).
  rewrite rfind_app, Rs. cbn [Z.leb Z.compare].
  pose proof (rfind_bounds pre "/") as Bi. unfold len in Bi.
  apply drop_app_le. lia.
Qed.

End ExtensionFacts.

(** X4. An extension that is present is a dot followed by characters that
    are neither dots nor separators, and it is in lower case. *)
Theorem extension_shape (file_path extension : string) :
  get_file_extension file_path = Some extension ->
  exists rest, extension = String "." rest /\
               mem "." rest = false /\ mem "/" rest = false /\
               lower extension = extension.
Proof.
  rewrite get_file_extension_unfold. cbv zeta.
  destruct (splitext_extension_shape file_path) as [-> | (rest & -> & Nd & Ns)];
    [discriminate|].
  cbn [truthy].
  change (lower (String "." rest)) with (String "." (lower rest)).
  intros H. inversion H; subst extension.
  exists (lower rest).
  split; [reflexivity|].
  split; [now rewrite lower_mem_dot|].
  split; [now rewrite lower_mem_sep|].
  change (lower (String "." (lower rest))) with (String "." (lower (lower rest))).
  now rewrite lower_idempotent.
Qed.

Lemma extension_shape_witness :
  exists rest, ".gz" = String "." rest /\
               mem "." rest = false /\ mem "/" rest = false /\
               lower ".gz" = ".gz".
Proof. apply (extension_shape "/x.d/a.tar.GZ" ".gz"). reflexivity. Defined.

(** X5. A format that is present is in lower case and holds no dot and no
    separator; it is never [jpg] and never [tif], which are reported as
    [jpeg] and [tiff]: a configured format [jpg] or [tif] matches no
    path. *)
Theorem format_shape (file_path format : string) :
  get_file_format file_path = Some format ->
  mem "." format = false /\ mem "/" format = false /\
  lower format = format /\ format <> "jpg" /\ format <> "tif".
Proof.
  rewrite get_file_format_unfold. unfold format_of_extension.
  destruct (splitext_extension_shape file_path) as [-> | (rest & -> & Nd & Ns)];
    [discriminate|].
  change (String.eqb (String "." rest) "") with false. cbv iota.
  change (lower (String "." rest)) with (String "." (lower rest)).
  change (PyStr.drop 1 (String "." (lower rest))) with (lower rest).
  destruct (String.eqb_spec (String "." (lower rest)) ".jpg") as [E|Nj].
  { intros H. inversion H. repeat split; try reflexivity; discriminate. }
  destruct (String.eqb_spec (String "." (lower rest)) ".tif") as [E|Nt].
  { intros H. inversion H. repeat split; try reflexivity; discriminate. }
  intros H. inversion H; subst format.
  split; [now rewrite lower_mem_dot|].
  split; [now rewrite lower_mem_sep|].
  split; [apply lower_idempotent|].
  split; intros E; rewrite E in *; congruence.
Qed.

Lemma format_shape_witness :
  mem "." "jpeg" = false /\ mem "/" "jpeg" = false /\
  lower "jpeg" = "jpeg" /\ "jpeg" <> "jpg" /\ "jpeg" <> "tif".
Proof. apply (format_shape "/photos/IMG.JPG" "jpeg"). reflexivity. Defined.

(** X6. For a path made of a stem (a prefix whose base name has a
    character other than a dot), a dot and an extension without dots and
    separators: the name is the base name of the stem, and the extension
    is the dot and the extension in lower case. *)
Theorem stem_dot_extension (pre ext : string) :
  stemmed pre = true ->
  mem "." ext = false ->
  mem "/" ext = false ->
  get_file_name (pre +:+ String "." ext) = Some (posixpath.basename pre) /\
  get_file_extension (pre +:+ String "." ext) = Some (String "." (lower ext)).
Proof.
  intros St Nd Ns. split.
  - rewrite get_file_name_unfold. cbv zeta.
    rewrite (basename_stem_extension pre ext Ns).
    rewrite splitext_stem_extension; [| |exact Nd|exact Ns].
    + cbn [fst]. unfold stemmed in St.
      destruct (posixpath.basename pre); [discriminate|reflexivity].
    + unfold stemmed in *.
      assert (posixpath.basename (posixpath.basename pre) = posixpath.basename pre)
        as ->; [|exact St].
      rewrite (basename_unfold (posixpath.basename pre)).
      pose proof (basename_no_sep pre) as NS. apply rfind_absent in NS.
      unfold posixpath.sep. rewrite NS.
      now destruct (posixpath.basename pre).
  - rewrite get_file_extension_unfold. cbv zeta.
    now rewrite (splitext_stem_extension pre ext St Nd Ns).
Qed.

Lemma stem_dot_extension_witness :
  get_file_name ("/data.v2/clip" +:+ String "." "MP4") =
    Some (posixpath.basename "/data.v2/clip") /\
  get_file_extension ("/data.v2/clip" +:+ String "." "MP4") =
    Some (String "." (lower "MP4")).
Proof.
  apply (stem_dot_extension "/data.v2/clip" "MP4"); reflexivity.
Defined.

Lemma same_file_extension_written (first_path second_path : string) :
  same_file_extension first_path second_path = true <->
  lower (snd (posixpath.splitext first_path)) =
  lower (snd (posixpath.splitext second_path)).
Proof.
  unfold same_file_extension. rewrite !get_file_extension_unfold. cbv zeta.
  rewrite bool_decide_eq_true.
  destruct (snd (posixpath.splitext first_path)) as [|a r],
           (snd (posixpath.splitext second_path)) as [|b t];
    cbn [truthy]; split; intros H; try reflexivity; try discriminate;
    congruence.
Qed.

(** X7. [same_file_extension] compares extensions up to case: two paths
    made of a stem, a dot and an extension have the same extension
    exactly when the extensions agree in lower case; and a path without a
    dot in its base name has the same extension as another such path and
    as no path that has an extension. *)
Theorem same_file_extension_up_to_case (pre1 ext1 pre2 ext2 bare1 bare2 : string) :
  stemmed pre1 = true -> mem "." ext1 = false -> mem "/" ext1 = false ->
  stemmed pre2 = true -> mem "." ext2 = false -> mem "/" ext2 = false ->
  mem "." (posixpath.basename bare1) = false ->
  mem "." (posixpath.basename bare2) = false ->
  (same_file_extension (pre1 +:+ String "." ext1) (pre2 +:+ String "." ext2) = true
   <-> lower ext1 = lower ext2) /\
  same_file_extension bare1 bare2 = true /\
  same_file_extension bare1 (pre1 +:+ String "." ext1) = false.
Proof.
  intros S1 D1 N1 S2 D2 N2 B1 B2.
  assert (forall bare, mem "." (posixpath.basename bare) = false ->
                       snd (posixpath.splitext bare) = "") as Bare.
  { intros bare B. rewrite splitext_basename.
    destruct (splitext_extension (posixpath.basename bare))
      as [E | (rest & E & _)]; [exact E|].
    pose proof (splitext_recombine (posixpath.basename bare)) as R.
    rewrite <- R, mem_app, E in B. cbn [mem] in B.
    apply orb_false_iff in B as [_ B]. discriminate. }
  split; [|split].
  - rewrite same_file_extension_written.
    rewrite (splitext_stem_extension pre1 ext1 S1 D1 N1).
    rewrite (splitext_stem_extension pre2 ext2 S2 D2 N2).
    cbn [snd lower]. split; intros H; [now inversion H | now rewrite H].
  - apply same_file_extension_written. now rewrite !Bare.
  - apply not_true_is_false. intros H.
    apply same_file_extension_written in H.
    rewrite (Bare bare1 B1), (splitext_stem_extension pre1 ext1 S1 D1 N1) in H.
    discriminate.
Qed.

Lemma same_file_extension_up_to_case_witness :
  (same_file_extension ("a" +:+ String "." "txt") ("/x/b" +:+ String "." "TXT") = true
   <-> lower "txt" = lower "TXT") /\
  same_file_extension "README" "/etc/hosts" = true /\
  same_file_extension "README" ("a" +:+ String "." "txt") = false.
Proof.
  apply (same_file_extension_up_to_case "a" "txt" "/x/b" "TXT" "README" "/etc/hosts");
    reflexivity.
Defined.

(** ** Path predicates and sizes *)

Section PredicateFacts.

Lemma os_path_getsize_run (p content : string) (w : World) :
  stat w p = inr (File content) ->
  call os_path_getsize [VStr p] [] w =
  (Ret (len content), record (Called "getsize" [VStr p] []) w).
Proof.
  intros S.
  change (call os_path_getsize [VStr p] [] w) with
    (match stat w p with
     | inr (File content) =>
         ret (len content) (record (Called "getsize" [VStr p] []) w)
     | inr Dir => ret 0 (record (Called "getsize" [VStr p] []) w)
     | inl k => os_error k p (record (Called "getsize" [VStr p] []) w)
     end).
  now rewrite S.
Qed.

Lemma isfile_stat (w : World) (p : string) :
  isfile w p = true <-> exists content, stat w p = inr (File content).
Proof.
  unfold isfile. destruct (stat w p) as [k|[c|]]; split;
    try discriminate; try (intros (c' & H); discriminate).
  - intros _. now exists c.
  - reflexivity.
Qed.

Lemma stat_truthy (w : World) (p : string) (n : Node) :
  stat w p = inr n -> truthy p = true.
Proof.
  unfold stat. destruct (resolve w p) as [k|loc] eqn:R; [discriminate|].
  intros _. exact (resolve_truthy w p loc R).
Qed.

End PredicateFacts.

(** X8. [is_file] and [is_directory] never raise and leave the file
    system as it is. [is_file] holds exactly for a path that names a
    regular file, [is_directory] exactly for one that names a directory;
    both are false for the empty path and for a path that names nothing,
    and they never hold together. *)
Theorem path_predicates (path : string) (w : World) :
  (exists w', is_file path w = (Ret (holds (is_file path) w), w') /\
              same_files w w') /\
  (exists w', is_directory path w = (Ret (holds (is_directory path) w), w') /\
              same_files w w') /\
  holds (is_file path) w =
    match stat w path with inr (File _) => true | _ => false end /\
  holds (is_directory path) w =
    match stat w path with inr Dir => true | _ => false end /\
  holds (is_file "") w = false /\ holds (is_directory "") w = false /\
  holds (is_file path) w && holds (is_directory path) w = false.
Proof.
  assert (holds (is_file path) w =
          match stat w path with inr (File _) => true | _ => false end) as F.
  { rewrite holds_is_file. fold (isfile w path).
    destruct (isfile w path) eqn:I; [|now rewrite andb_false_r].
    apply isfile_stat in I as (c & S). now rewrite (stat_truthy _ _ _ S). }
  assert (holds (is_directory path) w =
          match stat w path with inr Dir => true | _ => false end) as D.
  { rewrite holds_is_directory. fold (isdir w path).
    destruct (isdir w path) eqn:I; [|now rewrite andb_false_r].
    unfold isdir in I. destruct (stat w path) as [k|[c|]] eqn:S; try discriminate.
    now rewrite (stat_truthy _ _ _ S). }
  split; [|split; [|split; [exact F|split; [exact D|]]]].
  - exists (snd (is_file path w)). split; [|apply is_file_same].
    rewrite holds_is_file, is_file_run. reflexivity.
  - exists (snd (is_directory path w)). split; [|apply is_directory_same].
    rewrite holds_is_directory, is_directory_run. reflexivity.
  - split; [reflexivity|]. split; [reflexivity|].
    rewrite F, D. destruct (stat w path) as [k|[c|]]; reflexivity.
Qed.

(** X9. [get_file_size] never raises and never returns [None]: it
    returns the length of the content for a path that names a regular
    file and 0 for every other path, the empty one included, and it
    leaves the file system as it is. *)
Theorem get_file_size_spec (file_path : string) (w : World) :
  exists w',
    get_file_size file_path w =
    (Ret (Some (match stat w file_path with
                | inr (File content) => len content
                | _ => 0
                end)), w') /\
    same_files w w'.
Proof.
  unfold get_file_size.
  erewrite bind_ret by apply is_file_run.
  set (w0 := if truthy file_path
             then record (Called "isfile" [VStr file_path] []) w else w).
  assert (same_files w w0) as S0
    by (subst w0; destruct (truthy file_path);
        [apply same_files_record | apply same_files_refl]).
  destruct (truthy file_path && isfile w file_path) eqn:F.
  - apply andb_true_iff in F as [_ F].
    apply isfile_stat in F as (content & S). rewrite S.
    exists (record (Called "getsize" [VStr file_path] []) w0).
    split; [|exact (same_files_trans _ _ _ S0 (same_files_record _ _))].
    apply error_handler_first_try; [reflexivity|].
    apply os_path_getsize_run. now rewrite (stat_same _ _ _ S0).
  - exists w0. split; [|exact S0].
    destruct (stat w file_path) as [k|[content|]] eqn:S; try reflexivity.
    assert (isfile w file_path = true) as I by (apply isfile_stat; eauto).
    rewrite I, (stat_truthy _ _ _ S) in F. discriminate.
Qed.

(** ** Batch predicates and filters *)

Section BatchFacts.

Lemma existsb_same {A} (f g : A -> bool) (xs : list A) :
  (forall x, f x = g x) -> existsb f xs = existsb g xs.
Proof.
  intros E. induction xs as [|x xs IH]; [reflexivity|].
  cbn [existsb]. now rewrite E, IH.
Qed.

Lemma forallb_same {A} (f g : A -> bool) (xs : list A) :
  (forall x, f x = g x) -> forallb f xs = forallb g xs.
Proof.
  intros E. induction xs as [|x xs IH]; [reflexivity|].
  cbn [forallb]. now rewrite E, IH.
Qed.

(** [any] and [all] over a predicate that reads the files only. *)
Lemma any_map_run (f : string -> M bool) (g : World -> string -> bool) :
  (forall p w, exists w', f p w = (Ret (g w p), w') /\ same_files w w') ->
  (forall p w w', same_files w w' -> g w' p = g w p) ->
  forall paths w,
  exists w', any_map f paths w = (Ret (existsb (g w) paths), w') /\
             same_files w w'.
Proof.
  intros Hf Hg paths. induction paths as [|p paths IH]; intros w.
  - exists w. split; [reflexivity | apply same_files_refl].
  - destruct (Hf p w) as (w1 & E1 & S1).
    cbn [any_map existsb]. erewrite bind_ret by exact E1.
    destruct (g w p).
    + exists w1. split; [reflexivity | exact S1].
    + destruct (IH w1) as (w2 & E2 & S2).
      exists w2. split; [|exact (same_files_trans _ _ _ S1 S2)].
      rewrite E2. do 2 f_equal. apply existsb_same. intros q. now apply Hg.
Qed.

Lemma all_map_run (f : string -> M bool) (g : World -> string -> bool) :
  (forall p w, exists w', f p w = (Ret (g w p), w') /\ same_files w w') ->
  (forall p w w', same_files w w' -> g w' p = g w p) ->
  forall paths w,
  exists w', all_map f paths w = (Ret (forallb (g w) paths), w') /\
             same_files w w'.
Proof.
  intros Hf Hg paths. induction paths as [|p paths IH]; intros w.
  - exists w. split; [reflexivity | apply same_files_refl].
  - destruct (Hf p w) as (w1 & E1 & S1).
    cbn [all_map forallb]. erewrite bind_ret by exact E1.
    destruct (g w p).
    + destruct (IH w1) as (w2 & E2 & S2).
      exists w2. split; [|exact (same_files_trans _ _ _ S1 S2)].
      rewrite E2. do 2 f_equal. apply forallb_same. intros q. now apply Hg.
    + exists w1. split; [reflexivity | exact S1].
Qed.

Lemma classified_run (formats : list string) (p : string) (w : World) :
  exists w', _is_media_type p formats w = (Ret (classified formats w p), w') /\
             same_files w w'.
Proof. apply is_media_type_run. Qed.

Lemma classified_same (formats : list string) (p : string) (w w' : World) :
  same_files w w' -> classified formats w' p = classified formats w p.
Proof. intros S. unfold classified. now rewrite (holds_same_is_file p w w' S). Qed.

Lemma existsb_filter {A} (f : A -> bool) (xs : list A) :
  existsb f xs = nonempty (List.filter f xs).
Proof.
  induction xs as [|x xs IH]; [reflexivity|].
  cbn [existsb List.filter]. destruct (f x); [reflexivity | exact IH].
Qed.

Lemma forallb_filter {A} (f : A -> bool) (xs : list A) :
  forallb f xs = true <-> List.filter f xs = xs.
Proof.
  induction xs as [|x xs IH]; [split; reflexivity|].
  cbn [forallb List.filter]. destruct (f x) eqn:F; cbn [andb].
  - rewrite IH. split; intros H; [now rewrite H | now injection H].
  - split; [discriminate|]. intros H.
    assert (List.length (List.filter f xs) <= List.length xs)%nat as L
      by apply List.filter_length_le.
    rewrite H in L. simpl in L. lia.
Qed.

Lemma filter_run (formats : list string) (paths : list string) (w : World) :
  exists w',
    (match paths with
     | [] => ret []
     | _ => filter_comp (fun p => _is_media_type p formats) paths
     end) w = (Ret (List.filter (classified formats w) paths), w') /\
    same_files w w'.
Proof.
  destruct paths as [|p ps].
  - exists w. split; [reflexivity | apply same_files_refl].
  - apply (filter_comp_run (fun p => _is_media_type p formats) (classified formats)).
    + intros q w0. apply classified_run.
    + intros q w0 w1. apply classified_same.
Qed.

Lemma has_run (formats : list string) (paths : list string) (w : World) :
  exists w',
    (match paths with
     | [] => ret false
     | _ => any_map (fun p => _is_media_type p formats) paths
     end) w = (Ret (existsb (classified formats w) paths), w') /\
    same_files w w'.
Proof.
  destruct paths as [|p ps].
  - exists w. split; [reflexivity | apply same_files_refl].
  - apply (any_map_run (fun p => _is_media_type p formats) (classified formats)).
    + intros q w0. apply classified_run.
    + intros q w0 w1. apply classified_same.
Qed.

Lemma are_run (formats : list string) (paths : list string) (w : World) :
  exists w',
    (match paths with
     | [] => ret false
     | _ => all_map (fun p => _is_media_type p formats) paths
     end) w =
    (Ret (nonempty paths && forallb (classified formats w) paths), w') /\
    same_files w w'.
Proof.
  destruct paths as [|p ps].
  - exists w. split; [reflexivity | apply same_files_refl].
  - apply (all_map_run (fun p => _is_media_type p formats) (classified formats)).
    + intros q w0. apply classified_run.
    + intros q w0 w1. apply classified_same.
Qed.

End BatchFacts.

Section BatchRelations.

Lemma nonempty_forallb_filter (f : string -> bool) (paths : list string) :
  nonempty paths && forallb f paths = true <->
  paths <> [] /\ List.filter f paths = paths.
Proof.
  rewrite andb_true_iff, forallb_filter.
  destruct paths; cbn [nonempty]; split; intros [H1 H2]; split;
    try assumption; try reflexivity; try discriminate; congruence.
Qed.

Lemma are_implies_has (f : string -> bool) (paths : list string) :
  nonempty paths && forallb f paths = true -> existsb f paths = true.
Proof.
  destruct paths as [|p ps]; [discriminate|].
  cbn [nonempty forallb existsb andb]. intros H.
  apply andb_true_iff in H as [-> _]. reflexivity.
Qed.

Lemma filter_twice (f : string -> bool) (paths : list string) :
  List.filter f (List.filter f paths) = List.filter f paths.
Proof. apply forallb_filter, List.forallb_filter. Qed.

End BatchRelations.

(** X10. The batch predicates agree with the filters and with each
    other: [has_audio] is true exactly when [filter_audio_paths] keeps
    something, [are_audios] exactly when the list is not empty and
    [filter_audio_paths] keeps all of it, and [are_audios] implies
    [has_audio]; likewise [has_image] and [filter_image_paths], and
    [are_videos] implies [has_video]. None of them raises. *)
Theorem batch_predicates_agree (choices : Choices) (paths : list string) (w : World) :
  (exists (has are : bool) (kept : list string) (w1 w2 w3 : World),
     has_audio choices paths w = (Ret has, w1) /\
     are_audios choices paths w = (Ret are, w2) /\
     filter_audio_paths choices paths w = (Ret kept, w3) /\
     has = nonempty kept /\
     (are = true <-> paths <> [] /\ kept = paths) /\
     (are = true -> has = true)) /\
  (exists (has : bool) (kept : list string) (w1 w3 : World),
     has_image choices paths w = (Ret has, w1) /\
     filter_image_paths choices paths w = (Ret kept, w3) /\
     has = nonempty kept) /\
  (exists (has are : bool) (w1 w2 : World),
     has_video choices paths w = (Ret has, w1) /\
     are_videos choices paths w = (Ret are, w2) /\
     (are = true -> has = true)).
Proof.
  split; [|split].
  - destruct (has_run (audio_formats choices) paths w) as (w1 & H & _).
    destruct (are_run (audio_formats choices) paths w) as (w2 & A & _).
    destruct (filter_run (audio_formats choices) paths w) as (w3 & F & _).
    eexists _, _, _, w1, w2, w3.
    split; [exact H|]. split; [exact A|]. split; [exact F|].
    split; [apply existsb_filter|].
    split; [apply nonempty_forallb_filter | apply are_implies_has].
  - destruct (has_run (image_formats choices) paths w) as (w1 & H & _).
    destruct (filter_run (image_formats choices) paths w) as (w3 & F & _).
    eexists _, _, w1, w3.
    split; [exact H|]. split; [exact F|]. apply existsb_filter.
  - destruct (has_run (video_formats choices) paths w) as (w1 & H & _).
    destruct (are_run (video_formats choices) paths w) as (w2 & A & _).
    eexists _, _, w1, w2.
    split; [exact H|]. split; [exact A|]. apply are_implies_has.
Qed.

(** X11. Filtering twice is filtering once, and filtering a
    concatenation is concatenating the filtered parts: for
    [filter_audio_paths] and for [filter_image_paths]. *)
Theorem filter_paths_idempotent (choices : Choices) (paths more : list string)
    (w : World) :
  (exists (kept kept' : list string) (w1 w2 w3 w4 : World),
     filter_audio_paths choices paths w = (Ret kept, w1) /\
     filter_audio_paths choices kept w1 = (Ret kept, w2) /\
     filter_audio_paths choices more w = (Ret kept', w3) /\
     filter_audio_paths choices (paths ++ more) w = (Ret (kept ++ kept'), w4)) /\
  (exists (kept kept' : list string) (w1 w2 w3 w4 : World),
     filter_image_paths choices paths w = (Ret kept, w1) /\
     filter_image_paths choices kept w1 = (Ret kept, w2) /\
     filter_image_paths choices more w = (Ret kept', w3) /\
     filter_image_paths choices (paths ++ more) w = (Ret (kept ++ kept'), w4)).
Proof.
  assert (forall formats,
    exists (kept kept' : list string) (w1 w2 w3 w4 : World),
      (match paths with
       | [] => ret []
       | _ => filter_comp (fun p => _is_media_type p formats) paths
       end) w = (Ret kept, w1) /\
      (match kept with
       | [] => ret []
       | _ => filter_comp (fun p => _is_media_type p formats) kept
       end) w1 = (Ret kept, w2) /\
      (match more with
       | [] => ret []
       | _ => filter_comp (fun p => _is_media_type p formats) more
       end) w = (Ret kept', w3) /\
      (match paths ++ more with
       | [] => ret []
       | _ => filter_comp (fun p => _is_media_type p formats) (paths ++ more)
       end) w = (Ret (kept ++ kept'), w4)) as H.
  { intros formats.
    destruct (filter_run formats paths w) as (w1 & F1 & S1).
    destruct (filter_run formats (List.filter (classified formats w) paths) w1)
      as (w2 & F2 & _).
    destruct (filter_run formats more w) as (w3 & F3 & _).
    destruct (filter_run formats (paths ++ more) w) as (w4 & F4 & _).
    eexists _, _, w1, w2, w3, w4.
    split; [exact F1|]. split; [|split; [exact F3|]].
    - rewrite F2. do 2 f_equal.
      rewrite (List.filter_ext _ (classified formats w)
                 (fun p => classified_same formats p w w1 S1)).
      apply filter_twice.
    - rewrite F4. now rewrite List.filter_app. }
  split; apply H.
Qed.

(** ** Patterns without a directory *)

Section BarePatterns.

Lemma dirname_bare (p : string) :
  mem "/" p = false -> posixpath.dirname p = "".
Proof.
  intros N. unfold posixpath.dirname.
  apply rfind_absent in N. unfold posixpath.sep. rewrite N.
  change (-1 + 1) with 0. now rewrite slice_to_0.
Qed.

End BarePatterns.

(** X12. A path without a separator is in no directory, whatever the
    working directory holds: [in_directory] is false for it and
    [resolve_file_pattern] returns the empty list for it, both without a
    single call into the library. *)
Theorem bare_pattern_resolves_to_nothing
    (glob_matches : gmap (list string) Node -> list string -> string -> list string)
    (file_pattern : string) (w : World) :
  mem "/" file_pattern = false ->
  in_directory file_pattern w = (Ret false, w) /\
  resolve_file_pattern glob_matches file_pattern w = (Ret [], w).
Proof.
  intros N.
  assert (in_directory file_pattern w = (Ret false, w)) as I.
  { unfold in_directory. rewrite (dirname_bare _ N).
    now destruct (truthy file_pattern). }
  split; [exact I|].
  unfold resolve_file_pattern. now erewrite bind_ret by exact I.
Qed.

Lemma bare_pattern_resolves_to_nothing_witness :
  in_directory "a.txt" (MkWorld Sample.tree ["d"] []) =
    (Ret false, MkWorld Sample.tree ["d"] []) /\
  resolve_file_pattern glob_literal "a.txt" (MkWorld Sample.tree ["d"] []) =
    (Ret [], MkWorld Sample.tree ["d"] []).
Proof.
  apply (bare_pattern_resolves_to_nothing glob_literal "a.txt"
           (MkWorld Sample.tree ["d"] [])).
  reflexivity.
Defined.

(** The file [a.txt] is there all the same. *)
Example bare_pattern_exists :
  lexists (MkWorld Sample.tree ["d"] []) "a.txt" = true.
Proof. vm_compute. reflexivity. Qed.

(** ** Copying *)

Section Copying.
Implicit Types (m : gmap (list string) Node) (cur loc to : list string).

Lemma stat_resolve (w : World) (p : string) (n : Node) :
  stat w p = inr n <->
  exists loc, resolve w p = inr loc /\ node_at (fs w) loc = Some n.
Proof.
  unfold stat. destruct (resolve w p) as [k|loc].
  - split; [discriminate | intros (l & H & _); discriminate].
  - destruct (node_at (fs w) loc) as [x|] eqn:N; split.
    + intros H. inversion H; subst. eauto.
    + intros (l & H & H'). inversion H; subst. congruence.
    + discriminate.
    + intros (l & H & H'). inversion H; subst. congruence.
Qed.

Lemma node_at_insert_same m to (n : Node) :
  node_at m to <> Some Dir -> node_at (<[to := n]> m) to = Some n.
Proof.
  destruct to as [|x to]; [intros H; now destruct H|].
  intros _. cbn [node_at]. apply lookup_insert_eq.
Qed.

Lemma node_at_insert_other m to loc (n : Node) :
  node_at m to <> Some Dir -> loc <> to ->
  node_at (<[to := n]> m) loc = node_at m loc.
Proof.
  intros _ Ne. destruct loc as [|x loc]; [reflexivity|].
  cbn [node_at]. now apply lookup_insert_ne.
Qed.

(** Writing at a place that is no directory does not disturb a walk:
    every place a walk steps from is a directory. *)
Lemma walk_insert_off m to (n : Node) comps : forall cur loc,
  node_at m to <> Some Dir ->
  walk m cur comps = inr loc ->
  walk (<[to := n]> m) cur comps = inr loc.
Proof.
  induction comps as [|c rest IH]; intros cur loc Nd W; [exact W|].
  apply walk_cons in W as (N & Le & W).
  rewrite walk_cons_step; [now apply IH | | exact Le].
  rewrite (node_at_insert_other m to cur n Nd); [exact N|].
  intros ->. congruence.
Qed.

Lemma resolve_insert_off (w w1 : World) to (n : Node) (p : string) loc :
  fs w1 = <[to := n]> (fs w) ->
  cwd w1 = cwd w ->
  node_at (fs w) to <> Some Dir ->
  resolve w p = inr loc ->
  resolve w1 p = inr loc.
Proof.
  intros F C Nd R. apply resolve_walk in R as [E W]. apply resolve_walk.
  split; [exact E|].
  replace (components w1 p) with (components w p)
    by (unfold components; now rewrite C).
  rewrite F. now apply walk_insert_off.
Qed.

(** [split] gives at least one piece. *)
Lemma split_nonempty (s : string) (c : ascii) : split s c <> [].
Proof.
  destruct s as [|a s]; cbn [split]; [discriminate|].
  destruct (Ascii.eqb a c); [discriminate|].
  destruct (split s c); discriminate.
Qed.

(** Only the root has no component at all. *)
Lemma components_nil (w : World) (p : string) :
  snd (components w p) = [] -> fst (components w p) = [].
Proof.
  unfold components. pose proof (split_nonempty p "/") as Ne.
  destruct (split p "/") as [|c rest]; [congruence|].
  destruct c as [|a c]; [reflexivity|]. discriminate.
Qed.

Lemma strip_empty_tail_nil comps :
  strip_empty_tail comps = [] -> Forall (fun c => c = "") comps.
Proof.
  induction comps as [|c rest IH]; [constructor|].
  cbn [strip_empty_tail].
  destruct (strip_empty_tail rest); [|discriminate].
  case_bool_decide; [|discriminate]. intros _. constructor; auto.
Qed.

(** A walk through empty components stays, and where it stays is a
    directory if there is any component. *)
Lemma walk_empties m comps : forall cur loc,
  Forall (fun c => c = "") comps ->
  walk m cur comps = inr loc ->
  loc = cur /\ (comps <> [] -> node_at m cur = Some Dir).
Proof.
  induction comps as [|c rest IH]; intros cur loc E W.
  - cbn [walk] in W. inversion W. split; [reflexivity | congruence].
  - inversion E as [|? ? Ec Er]; subst.
    apply walk_cons in W as (N & _ & W). rewrite step_empty in W.
    destruct (IH _ _ Er W) as [-> _]. split; [reflexivity | now intros _].
Qed.

(** A path that ends in a separator leads to a directory, if anywhere. *)
Lemma walk_trailing comps : forall m cur loc,
  walk m cur comps = inr loc ->
  strip_empty_tail comps <> comps ->
  node_at m loc = Some Dir.
Proof.
  induction comps as [|c rest IH]; intros m cur loc W S; [now destruct S|].
  pose proof W as W0. apply walk_cons in W as (N & Le & W).
  cbn [strip_empty_tail] in S.
  destruct (strip_empty_tail rest) as [|s ss] eqn:R.
  - pose proof (strip_empty_tail_nil _ R) as E.
    destruct (walk_empties _ _ _ _ E W) as [-> D].
    destruct rest as [|r rest'].
    + case_bool_decide as C; [|now destruct S]. subst c. exact N.
    + now apply D.
  - apply (IH _ _ _ W). intros E. apply S. now rewrite E.
Qed.

Lemma last_removelast {A} (l : list A) (x : A) :
  last l = Some x -> l = removelast l ++ [x].
Proof.
  destruct l as [|y l] using rev_ind; [discriminate|].
  rewrite last_snoc. intros H. inversion H; subst.
  now rewrite removelast_last.
Qed.

Lemma strip_empty_tail_last comps c :
  last (strip_empty_tail comps) = Some c ->
  strip_empty_tail comps = removelast (strip_empty_tail comps) ++ [c].
Proof. apply last_removelast. Qed.


(** The walk to what a path names, in terms of [parent]. *)
Lemma parent_walk (w : World) (p : string) (c : string) :
  path_error p = None ->
  last (strip_empty_tail (snd (components w p))) = Some c ->
  walk (fs w) (fst (components w p)) (strip_empty_tail (snd (components w p))) =
  match parent w p with
  | inl k => inl k
  | inr (cur, _) =>
      if NAME_MAX <? encoded_length c then inl (OSError ENAMETOOLONG)
      else inr (step cur c)
  end.
Proof.
  intros E L. unfold parent. rewrite E.
  destruct (components w p) as [start comps]. cbn [fst snd] in *.
  cbv zeta. rewrite L.
  rewrite (strip_empty_tail_last _ _ L) at 1. rewrite walk_app.
  destruct (walk (fs w) start (removelast (strip_empty_tail comps)))
    as [k|cur]; [reflexivity|].
  cbn [walk]. destruct (node_at (fs w) cur) as [[x|]|]; reflexivity.
Qed.

Lemma parent_last (w : World) (p : string) cur (last_component : option string) :
  parent w p = inr (cur, last_component) ->
  last_component = last (strip_empty_tail (snd (components w p))) /\
  (last_component <> None -> node_at (fs w) cur = Some Dir).
Proof.
  unfold parent. destruct (path_error p); [discriminate|].
  destruct (components w p) as [start comps]. cbn [snd]. cbv zeta.
  destruct (last (strip_empty_tail comps)) as [c|].
  - destruct (walk (fs w) start (removelast (strip_empty_tail comps)))
      as [k|cur']; [discriminate|].
    destruct (node_at (fs w) cur') as [[x|]|] eqn:N; try discriminate.
    intros H. inversion H; subst. split; [reflexivity | now intros _].
  - intros H. inversion H; subst. split; [reflexivity | congruence].
Qed.

(** Writing through a path that leads to a place that is no directory
    writes at that place. *)
Lemma write_file_resolved (w : World) (p content : string) to :
  resolve w p = inr to ->
  node_at (fs w) to <> Some Dir ->
  write_file w p content = inr (<[to := File content]> (fs w)).
Proof.
  intros R Nd. apply resolve_walk in R as [E W].
  assert (strip_empty_tail (snd (components w p)) = snd (components w p)) as S.
  { destruct (decide (strip_empty_tail (snd (components w p))
                      = snd (components w p))) as [S|S]; [exact S|].
    destruct Nd. exact (walk_trailing _ _ _ _ W S). }
  unfold write_file.
  destruct (last (strip_empty_tail (snd (components w p)))) as [c|] eqn:L.
  - pose proof (parent_walk w p c E L) as P. rewrite S, W in P.
    destruct (parent w p) as [k|[cur lc]] eqn:Pa; [discriminate|].
    destruct (parent_last _ _ _ _ Pa) as [-> _]. rewrite L.
    destruct (NAME_MAX <? encoded_length c); [discriminate|].
    inversion P; subst to.
    unfold trailing_slash. rewrite (bool_decide_eq_true_2 _ S).
    cbn [negb]. rewrite andb_false_r.
    destruct (node_at (fs w) (step cur c)) as [[x|]|]; try reflexivity.
    now destruct Nd.
  - exfalso. apply Nd. rewrite S in L.
    assert (snd (components w p) = []) as Nil
      by (destruct (snd (components w p)) as [|x l] using rev_ind;
          [reflexivity | now rewrite last_snoc in L]).
    rewrite Nil in W. cbn [walk] in W. inversion W.
    now rewrite (components_nil w p Nil).
Qed.

Lemma located_resolved (w : World) (p : string) loc (n : Node) :
  resolve w p = inr loc -> node_at (fs w) loc = Some n -> located w p = inr loc.
Proof. intros R N. unfold located. now rewrite R, N. Qed.

Lemma shutil_copy_run (src dst : string) (w : World) :
  call shutil_copy [VStr src; VStr dst] [] w =
  let w0 := record (Called "copy" [VStr src; VStr dst] []) w in
  copyfile src
    (if isdir w dst then posixpath.join dst (posixpath.basename src) else dst)
    w0.
Proof. reflexivity. Qed.

Lemma isfile_resolved (w : World) (p content : string) loc :
  resolve w p = inr loc -> node_at (fs w) loc = Some (File content) ->
  isfile w p = true.
Proof.
  intros R N. apply isfile_stat. exists content. apply stat_resolve. eauto.
Qed.

(** The copy itself, where source and target are in order. *)
Lemma shutil_copy_writes (src dst target content : string) (w : World) from to :
  resolve w src = inr from ->
  node_at (fs w) from = Some (File content) ->
  target = (if isdir w dst then posixpath.join dst (posixpath.basename src)
            else dst) ->
  resolve w target = inr to ->
  node_at (fs w) to <> Some Dir ->
  from <> to ->
  call shutil_copy [VStr src; VStr dst] [] w =
  (Ret target,
   set_fs (record (Called "copy" [VStr src; VStr dst] []) w)
     (<[to := File content]> (fs w))).
Proof.
  intros Rs Ns -> Rt Nt Ne. rewrite shutil_copy_run. cbv zeta.
  set (w0 := record (Called "copy" [VStr src; VStr dst] []) w).
  set (target := if isdir w dst
                 then posixpath.join dst (posixpath.basename src) else dst) in *.
  assert (same_files w w0) as S0 by apply same_files_record.
  assert (resolve w0 src = inr from) as Rs0 by now rewrite (resolve_same _ _ _ S0).
  assert (resolve w0 target = inr to) as Rt0 by now rewrite (resolve_same _ _ _ S0).
  unfold copyfile, bind, _samefile.
  rewrite (located_resolved w0 src from (File content) Rs0 Ns).
  assert (match located w0 target with
          | inl k => is_os_error k = true
          | inr to' => to' = to
          end) as Lt.
  { unfold located. rewrite Rt0.
    now destruct (node_at (fs w0) to). }
  assert (read_file w0 src = inr content) as Rd.
  { unfold read_file.
    now rewrite (proj2 (stat_resolve w0 src (File content))) by eauto. }
  assert (write_file w0 target content = inr (<[to := File content]> (fs w))) as Wr
    by exact (write_file_resolved w0 target content to Rt0 Nt).
  destruct (located w0 target) as [k|to'].
  - rewrite Lt. unfold ret. now rewrite Rd, Wr.
  - subst to'. unfold ret.
    rewrite (bool_decide_eq_false_2 _ Ne). now rewrite Rd, Wr.
Qed.

(** The copy of a file onto itself. *)
Lemma shutil_copy_same (src dst content : string) (w : World) from :
  resolve w src = inr from ->
  node_at (fs w) from = Some (File content) ->
  resolve w dst = inr from ->
  call shutil_copy [VStr src; VStr dst] [] w =
  os_error SameFileError dst (record (Called "copy" [VStr src; VStr dst] []) w).
Proof.
  intros Rs Ns Rd. rewrite shutil_copy_run. cbv zeta.
  set (w0 := record (Called "copy" [VStr src; VStr dst] []) w).
  assert (same_files w w0) as S0 by apply same_files_record.
  assert (isdir w dst = false) as ->.
  { unfold isdir, stat. now rewrite Rd, Ns. }
  unfold copyfile, bind, _samefile.
  rewrite (located_resolved w0 src from (File content)), (located_resolved w0 dst from (File content));
    try assumption; try now rewrite (resolve_same _ _ _ S0).
  unfold ret. now rewrite bool_decide_eq_true_2 by reflexivity.
Qed.

End Copying.

(** X13. [copy_file] from a regular file to a path that is not the same
    file, is no directory and lies in an existing directory returns true;
    afterwards the destination holds the content of the source and
    nothing else has changed. *)
Theorem copy_file_writes (file_path move_path content : string) (w : World)
    (from to : list string) :
  resolve w file_path = inr from ->
  node_at (fs w) from = Some (File content) ->
  resolve w move_path = inr to ->
  isdir w move_path = false ->
  from <> to ->
  exists w',
    copy_file file_path move_path w = (Ret true, w') /\
    fs w' = <[to := File content]> (fs w) /\
    cwd w' = cwd w /\
    stat w' move_path = inr (File content) /\
    stat w' file_path = inr (File content).
Proof.
  intros Rs Ns Rt Nd Ne.
  assert (node_at (fs w) to <> Some Dir) as Nt.
  { intros N. unfold isdir in Nd.
    now rewrite (proj2 (stat_resolve w move_path Dir)) in Nd by eauto. }
  set (w0 := record (Called "isfile" [VStr file_path] []) w).
  assert (same_files w w0) as S0 by apply same_files_record.
  set (w1 := set_fs (record (Called "copy" [VStr file_path; VStr move_path] []) w0)
               (<[to := File content]> (fs w))).
  assert (call shutil_copy [VStr file_path; VStr move_path] [] w0 =
          (Ret move_path, w1)) as C.
  { rewrite (shutil_copy_writes file_path move_path move_path content w0 from to);
      try assumption; try reflexivity.
    now rewrite (isdir_same _ _ _ S0), Nd. }
  assert (stat w1 move_path = inr (File content)) as Sd.
  { apply stat_resolve. exists to. split.
    - now apply (resolve_insert_off w w1 to (File content)).
    - now apply node_at_insert_same. }
  assert (stat w1 file_path = inr (File content)) as Ss.
  { apply stat_resolve. exists from. split.
    - now apply (resolve_insert_off w w1 to (File content)).
    - cbn [fs w1 set_fs]. now rewrite node_at_insert_other. }
  exists (record (Called "isfile" [VStr move_path] []) w1).
  split; [|repeat split; assumption].
  unfold copy_file. erewrite bind_ret by apply is_file_run.
  rewrite (resolve_truthy _ _ _ Rs), (isfile_resolved w file_path content from Rs Ns).
  cbn [andb]. unfold _file_operation.
  erewrite bind_ret
    by (apply error_handler_first_try; [reflexivity | exact C]).
  rewrite is_file_run, (resolve_truthy _ _ _ Rt).
  assert (isfile w1 move_path = true) as -> by (apply isfile_stat; eauto).
  reflexivity.
Qed.

Lemma copy_file_writes_witness :
  exists w',
    copy_file "/f" "/d/g" Sample.world = (Ret true, w') /\
    fs w' = <[["d"; "g"] := File "f"]> (fs Sample.world) /\
    cwd w' = cwd Sample.world /\
    stat w' "/d/g" = inr (File "f") /\
    stat w' "/f" = inr (File "f").
Proof.
  apply (copy_file_writes "/f" "/d/g" "f" Sample.world ["f"] ["d"; "g"]);
    try (vm_compute; reflexivity).
  discriminate.
Defined.

(** X14. [copy_file] of a regular file onto itself, under the same or
    another spelling of its path, returns no boolean: [shutil.copy]
    raises [SameFileError] on each of the three attempts and the wrapper
    raises it to the caller; the file system is as it was. *)
Theorem copy_file_onto_itself (file_path move_path : string) (w : World) :
  holds (is_file file_path) w = true ->
  resolve w move_path = resolve w file_path ->
  exists e w',
    copy_file file_path move_path w = (Raise e, w') /\
    kind e = SameFileError /\
    same_files w w'.
Proof.
  intros H R. rewrite holds_is_file in H.
  apply andb_true_iff in H as [T F].
  pose proof F as F'. apply isfile_stat in F' as (content & St).
  apply stat_resolve in St as (from & Rs & Ns).
  assert (isdir w move_path = false) as Nd.
  { unfold isdir, stat. now rewrite R, Rs, Ns. }
  set (w0 := record (Called "isfile" [VStr file_path] []) w).
  assert (same_files w w0) as S0 by apply same_files_record.
  destruct (error_handler_steady_failure shutil_copy
              [VStr file_path; VStr move_path] [] default_retries default_delay
              (MkExn SameFileError
                 (strerror SameFileError +:+ ": '" +:+ move_path +:+ "'"))
              (Called "copy" [VStr file_path; VStr move_path] []) w0)
    as (w' & E & S); [reflexivity | discriminate | |].
  - intros w1 S1.
    assert (same_files w w1) as S by exact (same_files_trans _ _ _ S0 S1).
    apply (shutil_copy_same file_path move_path content w1 from).
    + now rewrite (resolve_same _ _ _ S).
    + destruct S as [-> _]. exact Ns.
    + now rewrite (resolve_same _ _ _ S), R.
  - exists (MkExn SameFileError
              (strerror SameFileError +:+ ": '" +:+ move_path +:+ "'")), w'.
    split; [|split; [reflexivity|]].
    + unfold copy_file. erewrite bind_ret by apply is_file_run.
      rewrite T, F. cbn [andb]. unfold _file_operation.
      now erewrite bind_raise by exact E.
    + exact (same_files_trans _ _ _ S0 S).
Qed.

Lemma copy_file_onto_itself_witness :
  exists e w',
    copy_file "/f" "/d/../f" Sample.world = (Raise e, w') /\
    kind e = SameFileError /\
    same_files Sample.world w'.
Proof.
  apply (copy_file_onto_itself "/f" "/d/../f" Sample.world);
    vm_compute; reflexivity.
Defined.



(** ** Moving *)

(** X16. When [is_file] rejects the source, [move_file] returns false and
    [shutil.move] is not called: the only thing done is that [is_file]
    check, whatever [shutil.move] would have done. *)
Theorem move_file_without_source (shutil_move : Callable string)
    (file_path move_path : string) (w : World) :
  holds (is_file file_path) w = false ->
  move_file shutil_move file_path move_path w =
  (Ret false,
   if truthy file_path
   then record (Called "isfile" [VStr file_path] []) w else w).
Proof.
  intros H. rewrite holds_is_file in H.
  unfold move_file. erewrite bind_ret by apply is_file_run.
  now rewrite H.
Qed.

Lemma move_file_without_source_witness :
  move_file MoreSamples.rename "/d" "/e" Sample.world =
  (Ret false,
   if truthy "/d"
   then record (Called "isfile" [VStr "/d"] []) Sample.world else Sample.world).
Proof.
  apply (move_file_without_source MoreSamples.rename "/d" "/e" Sample.world).
  vm_compute. reflexivity.
Defined.

(** X17. Whatever [shutil.move] does, a [move_file] that returns true
    leaves a world in which the source is no regular file any more and
    the destination is one. *)
Theorem move_file_postcondition (shutil_move : Callable string)
    (file_path move_path : string) (w w' : World) :
  move_file shutil_move file_path move_path w = (Ret true, w') ->
  holds (is_file file_path) w' = false /\
  holds (is_file move_path) w' = true.
Proof.
  unfold move_file. erewrite bind_ret by apply is_file_run.
  destruct (truthy file_path && isfile w file_path); [|discriminate].
  unfold _file_operation, bind at 1.
  destruct (_error_handler shutil_move _ _ _ _ _) as [[r|e] w1]; [|discriminate].
  erewrite bind_ret by apply is_file_run.
  pose proof (is_file_same file_path w1) as S1. rewrite is_file_run in S1.
  cbn [snd] in S1.
  set (w2 := if truthy file_path
             then record (Called "isfile" [VStr file_path] []) w1 else w1) in *.
  destruct (truthy file_path && isfile w1 file_path) eqn:Still; [discriminate|].
  cbn [negb]. rewrite is_file_run. intros H. injection H as Hd Hw.
  pose proof (is_file_same move_path w2) as S2. rewrite is_file_run in S2.
  cbn [snd] in S2. rewrite Hw in S2.
  split.
  - rewrite (holds_same_is_file _ _ _ (same_files_trans _ _ _ S1 S2)).
    now rewrite holds_is_file.
  - rewrite (holds_same_is_file _ _ _ S2), holds_is_file. exact Hd.
Qed.

Lemma move_file_postcondition_witness :
  holds (is_file "/f") (snd (move_file MoreSamples.rename "/f" "/d/g" Sample.world))
    = false /\
  holds (is_file "/d/g") (snd (move_file MoreSamples.rename "/f" "/d/g" Sample.world))
    = true.
Proof.
  apply (move_file_postcondition MoreSamples.rename "/f" "/d/g" Sample.world).
  vm_compute. reflexivity.
Defined.

(** X18. [move_file] of a path onto itself never returns true, whatever
    [shutil.move] does: afterwards the path would have to be a regular
    file and not be one. *)
Theorem move_file_onto_itself (shutil_move : Callable string)
    (file_path : string) (w w' : World) :
  move_file shutil_move file_path file_path w <> (Ret true, w').
Proof.
  unfold move_file. erewrite bind_ret by apply is_file_run.
  destruct (truthy file_path && isfile w file_path); [|discriminate].
  unfold _file_operation, bind at 1.
  destruct (_error_handler shutil_move _ _ _ _ _) as [[r|e] w1]; [|discriminate].
  erewrite bind_ret by apply is_file_run.
  pose proof (is_file_same file_path w1) as S1. rewrite is_file_run in S1.
  cbn [snd] in S1.
  set (w2 := if truthy file_path
             then record (Called "isfile" [VStr file_path] []) w1 else w1) in *.
  destruct (truthy file_path && isfile w1 file_path) eqn:Still; [discriminate|].
  cbn [negb]. rewrite is_file_run, (isfile_same _ _ _ S1), Still. discriminate.
Qed.

(** ** Removing directories *)

Section RemovingDirectories.
Implicit Types (m : gmap (list string) Node) (cur loc key : list string).





















End RemovingDirectories.






(** A path that comes back from below the directory it names:
    [remove_directory] returns true and [/d] is still there, empty. *)
Example remove_directory_leaves_directory :
  let after := remove_directory "/d/.git/../../d" Sample.world in
  fst after = Ret true /\
  fs (snd after) !! ["d"] = Some Dir /\
  fs (snd after) !! ["d"; "a.txt"] = None.
Proof. repeat split; vm_compute; reflexivity. Qed.

(** ** Heads and tails of paths *)

Section SplittingPaths.

Lemma take_app_length (s t : string) (n : nat) :
  PyStr.take (String.length s + n) (s +:+ t) = s +:+ PyStr.take n t.
Proof.
  induction s as [|a s IH]; [reflexivity|].
  rewrite !app_cons. cbn [String.length Nat.add PyStr.take]. now rewrite IH.
Qed.

Lemma drop_app_length (s t : string) (n : nat) :
  PyStr.drop (String.length s + n) (s +:+ t) = PyStr.drop n t.
Proof.
  induction s as [|a s IH]; [reflexivity|].
  rewrite !app_cons. cbn [String.length Nat.add PyStr.drop]. exact IH.
Qed.







(** What [rstrip] takes away are separators. *)
Lemma rstrip_times (s : string) : exists j, rstrip s "/" +:+ times "/" j = s.
Proof.
  induction s as [|a s [j IH]]; [now exists 0%nat|].
  cbn [rstrip]. destruct (rstrip s "/") as [|b r] eqn:R.
  - change ("" +:+ times "/" j) with (times "/" j) in IH.
    destruct (mem a "/") eqn:M.
    + exists (S j). cbn [mem] in M. rewrite orb_false_r in M.
      apply Ascii.eqb_eq in M. subst a.
      change (times "/" (S j)) with (String "/" (times "/" j)).
      now rewrite IH.
    + exists j. rewrite app_cons, IH. reflexivity.
  - exists j. rewrite app_cons. now rewrite IH.
Qed.

(** [posixpath.split] takes a path apart at its last separator. *)
Lemma split_parts (p : string) :
  let i := rfind p "/" + 1 in
  (slice p None (Some i) = "" /\ slice p (Some i) None = p /\
   mem "/" p = false) \/
  (exists x tail,
     p = x +:+ String "/" tail /\ mem "/" tail = false /\
     slice p None (Some i) = x +:+ "/" /\ slice p (Some i) None = tail).
Proof.
  cbv zeta. pose proof (rfind_bounds p "/") as B.
  destruct (Z.eq_dec (rfind p "/") (-1)) as [E|N].
  - left. rewrite E. change (-1 + 1) with 0.
    rewrite slice_to_0, slice_from by lia.
    split; [reflexivity|]. split; [reflexivity | now apply rfind_absent].
  - right. destruct (rfind_found p "/") as (rest & D & M); [lia|].
    set (x := PyStr.take (Z.to_nat (rfind p "/")) p).
    assert (p = x +:+ String "/" rest) as P.
    { rewrite <- D. symmetry. apply take_drop. }
    assert (String.length x = Z.to_nat (rfind p "/")) as Lx.
    { unfold x. rewrite take_length. unfold len in B. lia. }
    exists x, rest. split; [exact P|]. split; [exact M|].
    rewrite slice_to, slice_from by lia.
    replace (Z.to_nat (rfind p "/" + 1)) with (String.length x + 1)%nat by lia.
    clearbody x. rewrite P. rewrite take_app_length, drop_app_length.
    split; reflexivity.
Qed.

(** A head that is not empty ends where a separator of the path stands:
    together with the separators stripped from it, it is the path up to
    the last separator. *)
Lemma split_spec (p head tail : string) :
  posixpath.split p = (head, tail) ->
  truthy head = true ->
  exists x j,
    p = x +:+ String "/" tail /\ mem "/" tail = false /\
    head +:+ times "/" j = x +:+ "/".
Proof.
  unfold posixpath.split, posixpath.sep. intros S T.
  destruct (split_parts p) as [(H0 & _ & _) | (x & tl & P & M & H0 & T0)];
    cbv zeta in *; rewrite H0 in S.
  - cbn in S. inversion S; subst. discriminate.
  - rewrite T0 in S. exists x.
    destruct (truthy (x +:+ "/") && negb (all_char (x +:+ "/") "/")).
    + injection S as <- <-. destruct (rstrip_times (x +:+ "/")) as [j J].
      now exists j.
    + injection S as <- <-. exists 0%nat. split; [exact P|]. split; [exact M|].
      apply app_empty_r.
Qed.


(** A head is shorter than the path when there is a tail. *)
Lemma split_shorter (p head tail : string) :
  posixpath.split p = (head, tail) ->
  (String.length head <= String.length p)%nat /\
  (truthy head = true -> truthy tail = true ->
   (String.length head < String.length p)%nat).
Proof.
  intros S. destruct (truthy head) eqn:T.
  - destruct (split_spec p head tail S T) as (x & j & P & _ & J).
    apply (f_equal len) in P, J.
    rewrite len_app in P. rewrite (len_app head), (len_app x) in J.
    pose proof (len_nonneg (times "/" j)).
    unfold len in *. cbn [String.length] in P, J.
    split; [lia|]. intros _ Tt. destruct tail; [discriminate|].
    cbn [String.length] in P. lia.
  - destruct head; [|discriminate]. cbn. split; [lia | discriminate].
Qed.




End SplittingPaths.

(** ** More on making directories *)

Section Invariants.
Variable R : World -> World -> Prop.
Hypothesis R_refl : forall w, R w w.
Hypothesis R_trans : forall w1 w2 w3, R w1 w2 -> R w2 w3 -> R w1 w3.

Lemma preserves_ret {A} (a : A) : preserves R (ret a).
Proof. intros w. apply R_refl. Qed.

Lemma preserves_raise {A} (k : ExnKind) (msg : string) :
  preserves R (raise (A := A) k msg).
Proof. intros w. apply R_refl. Qed.

Lemma preserves_bind {A B} (m : M A) (f : A -> M B) :
  preserves R m -> (forall a, preserves R (f a)) -> preserves R (bind m f).
Proof.
  intros Pm Pf w. unfold bind. specialize (Pm w).
  destruct (m w) as [[a|e] w1]; [|exact Pm].
  exact (R_trans _ _ _ Pm (Pf a w1)).
Qed.

Lemma preserves_except {A} (catches : ExnKind -> bool) (m : M A)
    (handler : Exn -> M A) :
  preserves R m -> (forall e, preserves R (handler e)) ->
  preserves R (except_ catches m handler).
Proof.
  intros Pm Ph w. unfold except_. specialize (Pm w).
  destruct (m w) as [[a|e] w1]; [exact Pm|].
  destruct (catches (kind e)); [|exact Pm].
  exact (R_trans _ _ _ Pm (Ph e w1)).
Qed.

Lemma preserves_try_except {A} (m : M A) (handler : Exn -> M A) :
  preserves R m -> (forall e, preserves R (handler e)) ->
  preserves R (try_except m handler).
Proof.
  intros Pm Ph w. unfold try_except. specialize (Pm w).
  destruct (m w) as [[a|e] w1]; [exact Pm|].
  exact (R_trans _ _ _ Pm (Ph e w1)).
Qed.

Lemma preserves_for_each {A B} (xs : list A) (body : A -> M (option B)) :
  (forall x, preserves R (body x)) -> preserves R (for_each xs body).
Proof.
  intros Pb. induction xs as [|x xs IH]; [apply preserves_ret|].
  cbn [for_each]. apply preserves_bind; [apply Pb|].
  intros [v|]; [apply preserves_ret | exact IH].
Qed.

Hypothesis R_record : forall ev w, R w (record ev w).

Lemma preserves_emit (ev : Event) : preserves R (emit ev).
Proof. intros w. apply R_record. Qed.

(** What every call of the operation preserves, the retry wrapper
    preserves, whether it returns or raises. *)
Lemma preserves_error_handler {A} (func : Callable A) (args : list Value)
    (kwargs : list (string * Value)) (retries delay : Z) :
  preserves R (call func args kwargs) ->
  preserves R (_error_handler func args retries delay kwargs).
Proof.
  intros Pc. apply preserves_for_each. intros attempt.
  unfold _error_handler_attempt. apply preserves_try_except.
  - apply preserves_bind; [exact Pc|]. intros result.
    apply preserves_bind; [|intros; apply preserves_ret].
    destruct (0 <? attempt); [apply preserves_emit | apply preserves_ret].
  - intros e. apply preserves_bind; [apply preserves_emit|]. intros _.
    destruct (attempt <? retries - 1); [|intros w; apply R_refl].
    apply preserves_bind; [|intros; apply preserves_ret].
    unfold time_sleep.
    destruct (delay <? 0); [apply preserves_raise | apply preserves_emit].
Qed.

Lemma preserves_primitive {A} (name : string)
    (body : list Value -> list (string * Value) -> M A)
    (args : list Value) (kwargs : list (string * Value)) :
  preserves R (body args kwargs) ->
  preserves R (call (primitive name body) args kwargs).
Proof.
  intros Pb. unfold primitive. cbn [call].
  apply preserves_bind; [apply preserves_emit | intros _; exact Pb].
Qed.

End Invariants.

Section MoreOnCreateDirectory.

Local Abbreviation exist_ok := [("exist_ok", VBool true)].

Lemma only_adds_refl (m : gmap (list string) Node) : only_adds_directories m m.
Proof. split; [easy | now left]. Qed.

Lemma extends_refl (w : World) : extends w w.
Proof. split; [reflexivity | apply only_adds_refl]. Qed.

Lemma extends_trans (w1 w2 w3 : World) :
  extends w1 w2 -> extends w2 w3 -> extends w1 w3.
Proof.
  intros [C1 [K1 N1]] [C2 [K2 N2]]. split; [congruence|]. split.
  - intros key n H. apply K2, K1, H.
  - intros key n H. destruct (N2 key n H) as [H'|H']; [|now right].
    exact (N1 key n H').
Qed.

Lemma extends_record (ev : Event) (w : World) : extends w (record ev w).
Proof. split; [reflexivity | apply only_adds_refl]. Qed.

Lemma same_files_extends (w w' : World) : same_files w w' -> extends w w'.
Proof.
  intros [F C]. split; [exact C|]. rewrite F. apply only_adds_refl.
Qed.

(** [mkdir] adds one directory where nothing was. *)
Lemma mkdir_adds (w : World) (p : string) (m : gmap (list string) Node) :
  mkdir w p = inr m ->
  exists loc, fs w !! loc = None /\ m = <[loc := Dir]> (fs w).
Proof.
  unfold mkdir. destruct (parent w p) as [k|[cur [c|]]]; try discriminate.
  destruct (bool_decide (c = "." \/ c = "..")); [discriminate|].
  destruct (NAME_MAX <? encoded_length c); [discriminate|].
  destruct (node_at (fs w) (cur ++ [c])) as [x|] eqn:N; [discriminate|].
  intros H. inversion H; subst. exists (cur ++ [c]). split; [|reflexivity].
  destruct (cur ++ [c]) eqn:E; [now destruct cur | exact N].
Qed.

Lemma preserves_os_mkdir (p : string) : preserves extends (os_mkdir p).
Proof.
  intros w. unfold os_mkdir. destruct (mkdir w p) as [k|m] eqn:Mk.
  - apply extends_refl.
  - apply mkdir_adds in Mk as (loc & Fresh & ->).
    split; [reflexivity|]. cbn [fs set_fs snd]. split.
    + intros key n H. rewrite lookup_insert_ne; [exact H | congruence].
    + intros key n H. destruct (decide (loc = key)) as [<-|Ne].
      * rewrite lookup_insert_eq in H. right. congruence.
      * rewrite lookup_insert_ne in H by exact Ne. now left.
Qed.

(** [makedirs] only adds directories, however it ends. *)
Lemma preserves_makedirs (fuel : nat) : forall (name : string) (ok : bool),
  preserves extends (makedirs fuel name ok).
Proof.
  induction fuel as [|fuel IH]; intros name ok.
  - apply (preserves_ret extends extends_refl).
  - cbn [makedirs].
    destruct (posixpath.split name) as [head1 tail1].
    destruct (if negb (truthy tail1) then posixpath.split head1
              else (head1, tail1)) as [head tail].
    assert (preserves extends
              (except_ is_os_error (os_mkdir name)
                 (fun e w => if negb ok || negb (isdir w name)
                             then reraise e w else ret tt w))) as Make.
    { apply (preserves_except extends extends_trans); [apply preserves_os_mkdir|].
      intros e w. destruct (negb ok || negb (isdir w name)); apply extends_refl. }
    destruct (truthy head && truthy tail); [|exact Make].
    apply (preserves_bind extends extends_trans);
      [intros w; apply extends_refl|].
    intros there. destruct (negb there); [|exact Make].
    apply (preserves_bind extends extends_trans).
    + apply (preserves_except extends extends_trans); [apply IH|].
      intros e w. apply extends_refl.
    + intros _. destruct (bool_decide (tail = "."));
        [apply (preserves_ret extends extends_refl) | exact Make].
Qed.

Lemma preserves_os_makedirs (args : list Value) (kwargs : list (string * Value)) :
  preserves extends (call os_makedirs args kwargs).
Proof.
  apply (preserves_primitive extends extends_trans extends_record).
  repeat first
    [ apply preserves_makedirs
    | intros w; apply extends_refl
    | match goal with
      | |- preserves _ (match ?x with _ => _ end) => destruct x
      end ].
Qed.



(** The recursion of [makedirs] is on a shorter name, so the result
    does not depend on the fuel once there is more of it than the name
    has characters. *)
Lemma makedirs_fuel (n1 : nat) : forall (n2 : nat) (name : string) (ok : bool),
  (String.length name < n1)%nat -> (String.length name < n2)%nat ->
  makedirs n1 name ok = makedirs n2 name ok.
Proof.
  induction n1 as [|n1 IH]; intros n2 name ok L1 L2; [lia|].
  destruct n2 as [|n2]; [lia|]. cbn [makedirs].
  destruct (posixpath.split name) as [head1 tail1] eqn:S1.
  destruct (if negb (truthy tail1) then posixpath.split head1
            else (head1, tail1)) as [head tail] eqn:S2.
  destruct (truthy head && truthy tail) eqn:T; [|reflexivity].
  apply andb_true_iff in T as [Th Tt].
  assert (String.length head < String.length name)%nat as Sh.
  { destruct (truthy tail1) eqn:T1; cbn [negb] in S2.
    - inversion S2; subst. now apply (split_shorter name head tail S1).
    - pose proof (proj1 (split_shorter name head1 tail1 S1)).
      pose proof (proj2 (split_shorter head1 head tail S2) Th Tt). lia. }
  now rewrite (IH n2 head ok) by lia.
Qed.


(** [create_directory] only adds directories. *)
Lemma preserves_create_directory (p : string) :
  preserves extends (create_directory p).
Proof.
  unfold create_directory. destruct (negb (truthy p));
    [apply (preserves_ret extends extends_refl)|].
  apply (preserves_bind extends extends_trans).
  - intros w. apply same_files_extends, is_file_same.
  - intros f. destruct f; [apply (preserves_ret extends extends_refl)|].
    apply (preserves_bind extends extends_trans).
    + apply (preserves_error_handler extends extends_refl extends_trans
               extends_record).
      apply preserves_os_makedirs.
    + intros _ w. apply same_files_extends, is_directory_same.
Qed.



End MoreOnCreateDirectory.


(** Where nothing is in the way, the directories are made once and found
    the second time. *)
Example create_directory_twice :
  let first := create_directory "/d/new/sub" Sample.world in
  let second := create_directory "/d/new/sub" (snd first) in
  fst first = Ret true /\ fst second = Ret true /\
  fs (snd first) !! ["d"; "new"; "sub"] = Some Dir /\
  fs (snd second) = fs (snd first).
Proof. repeat split; vm_compute; reflexivity. Qed.



(** What a failing [os.makedirs] has made by then stays: on [/new/../f]
    the call fails on the file [/f], and [/new] is there afterwards. *)
Example create_directory_leaves_parents :
  let after := create_directory "/new/../f" Sample.world in
  (exists e, fst after = Raise e /\ kind e = FileExistsError) /\
  fs (snd after) !! ["new"] = Some Dir.
Proof.
  split; [eexists; split|]; vm_compute; reflexivity.
Qed.

(** X21. [create_directory] only adds directories: whatever its outcome,
    the working directory is kept, every entry that was there is still
    there unchanged, and every entry that is new is a directory. *)
Theorem create_directory_only_adds (directory_path : string) (w : World) :
  let w' := snd (create_directory directory_path w) in
  cwd w' = cwd w /\
  (forall loc (n : Node),
     node_at (fs w) loc = Some n -> node_at (fs w') loc = Some n) /\
  (forall key (n : Node),
     fs w' !! key = Some n -> fs w !! key = Some n \/ n = Dir).
Proof.
  intros w'. subst w'.
  destruct (preserves_create_directory directory_path w) as [C [K N]].
  split; [exact C|]. split; [|exact N].
  intros [|x loc] n H; [exact H|]. cbn [node_at] in *. now apply K.
Qed.



(** ** The retry wrapper without attempts *)

(** X23. With an attempt count of zero or less, [_error_handler] does not
    invoke the operation at all: it returns [None] and the world, trace
    included, is as before, whatever the operation would have done. *)
Theorem error_handler_without_attempts {A} (func : Callable A)
    (args : list Value) (kwargs : list (string * Value))
    (retries delay : Z) (w : World) :
  retries <= 0 ->
  _error_handler func args retries delay kwargs w = (Ret None, w).
Proof.
  intros R. unfold _error_handler, range.
  replace (Z.to_nat retries) with 0%nat by lia. reflexivity.
Qed.

Lemma error_handler_without_attempts_witness :
  _error_handler os_remove [VStr "/f"] 0 1 [] Sample.world =
  (Ret None, Sample.world).
Proof. apply error_handler_without_attempts. lia. Defined.

(** ** Paths relative to the module *)

Section Normalising.

Lemma isabs_cons (s : string) :
  posixpath.isabs s = true <-> exists r, s = String "/" r.
Proof.
  unfold posixpath.isabs, startswith, posixpath.sep.
  destruct s as [|a r]; cbn [String.prefix].
  - split; [discriminate | intros [r' H]; discriminate].
  - destruct (ascii_dec "/" a) as [<-|N].
    + split; [eauto | destruct r; reflexivity].
    + split; [discriminate | intros [r' H]; congruence].
Qed.

Lemma split_no_sep (s : string) (c : ascii) :
  Forall (fun piece => mem c piece = false) (split s c).
Proof.
  induction s as [|a s IH]; cbn [split].
  - constructor; [reflexivity | constructor].
  - destruct (Ascii.eqb a c) eqn:E.
    + constructor; [reflexivity | exact IH].
    + destruct (split s c) as [|piece pieces].
      * constructor; [|constructor]. cbn [mem].
        rewrite E. reflexivity.
      * inversion IH as [|? ? Hp Hr]; subst.
        constructor; [|exact Hr]. cbn [mem].
        rewrite E. exact Hp.
Qed.

Lemma Forall_removelast {A} (P : A -> Prop) (l : list A) :
  Forall P l -> Forall P (removelast l).
Proof.
  induction 1 as [|x l Hx Hl IH]; cbn [removelast]; [constructor|].
  destruct l; [constructor|]. constructor; assumption.
Qed.

Lemma last_normal (acc : list string) :
  Forall normal_component acc -> last acc <> Some "..".
Proof.
  intros F L. apply last_Some_elem_of in L.
  rewrite Forall_forall in F. destruct (F _ L) as (_ & _ & N & _).
  now apply N.
Qed.

(** Below a root the loop of [normpath] keeps only names. *)
Lemma normpath_step_normal (i : Z) (acc : list string) (c : string) :
  i <> 0 ->
  Forall normal_component acc ->
  mem "/" c = false ->
  Forall normal_component (posixpath.normpath_step i acc c).
Proof.
  intros I F M. unfold posixpath.normpath_step.
  case_bool_decide as E; [exact F|].
  destruct (decide (c = "..")) as [->|N].
  - rewrite (bool_decide_eq_true_2 _ eq_refl).
    replace (i =? 0) with false by (symmetry; now apply Z.eqb_neq).
    rewrite (bool_decide_eq_false_2 _ (last_normal acc F)).
    rewrite andb_false_r. cbn [negb andb orb].
    case_bool_decide; [exact F | now apply Forall_removelast].
  - rewrite (bool_decide_eq_false_2 _ N). cbn [negb orb].
    apply Forall_app. split; [exact F|].
    constructor; [|constructor]. repeat split; try assumption.
    + intros ->. apply E. now left.
    + intros ->. apply E. now right.
Qed.

Lemma normpath_fold_normal (i : Z) (comps : list string) :
  i <> 0 ->
  Forall (fun piece => mem "/" piece = false) comps ->
  forall acc, Forall normal_component acc ->
  Forall normal_component (fold_left (posixpath.normpath_step i) comps acc).
Proof.
  intros I. induction 1 as [|c comps Hc Hr IH]; intros acc F; cbn [fold_left].
  - exact F.
  - apply IH. now apply normpath_step_normal.
Qed.

(** The normal form of an absolute path: one or two slashes, then names
    separated by single slashes. *)
Lemma normpath_absolute (p : string) :
  posixpath.isabs p = true ->
  exists (k : nat) (comps : list string),
    (k = 1 \/ k = 2)%nat /\
    Forall normal_component comps /\
    posixpath.normpath p = times "/" k +:+ join_with "/" comps.
Proof.
  intros Abs. destruct (proj1 (isabs_cons p) Abs) as [r ->].
  unfold posixpath.normpath.
  change (truthy (String "/" r)) with true. cbn [negb].
  rewrite (proj2 (isabs_cons (String "/" r)) (ex_intro _ r eq_refl) : startswith (String "/" r) "/" = true).
  cbv zeta.
  set (i := if startswith (String "/" r) "//" && negb (startswith (String "/" r) "///")
            then 2 else 1).
  assert (i = 1 \/ i = 2) as Hi
    by (subst i; destruct (_ && _); [now right | now left]).
  assert (i <> 0) as I by lia.
  set (comps := fold_left (posixpath.normpath_step i)
                  (split (String "/" r) posixpath.sep) []).
  assert (Forall normal_component comps) as F.
  { apply normpath_fold_normal; [exact I | apply split_no_sep | constructor]. }
  replace (i =? 0) with false by (symmetry; now apply Z.eqb_neq).
  exists (Z.to_nat i), comps. split; [lia|]. split; [exact F|].
  destruct Hi as [-> | ->]; reflexivity.
Qed.

Lemma getcwd_join_absolute (w : World) (p : string) :
  posixpath.isabs p = false ->
  posixpath.isabs (posixpath.join (os_getcwd w) p) = true.
Proof.
  intros R. unfold posixpath.join.
  change (startswith p (String posixpath.sep "")) with (posixpath.isabs p).
  rewrite R. unfold os_getcwd.
  destruct (negb _ || _); apply isabs_cons; eexists; reflexivity.
Qed.

Lemma os_path_abspath_absolute (p : string) (w : World) :
  exists q, posixpath.isabs q = true /\
            os_path_abspath p w = (Ret (posixpath.normpath q), w).
Proof.
  unfold os_path_abspath, ret.
  destruct (posixpath.isabs p) eqn:Abs.
  - now exists p.
  - exists (posixpath.join (os_getcwd w) p).
    split; [now apply getcwd_join_absolute | reflexivity].
Qed.

End Normalising.

(** X24. [resolve_relative_path] returns an absolute path in normal form:
    one or two slashes followed by names separated by single slashes, none
    of them empty, [.] or [..]. It leaves the world as it is. *)
Theorem resolve_relative_path_normal (__file__ path : string) (w : World) :
  exists (k : nat) (comps : list string),
    (k = 1 \/ k = 2)%nat /\
    Forall normal_component comps /\
    resolve_relative_path __file__ path w =
    (Ret (times "/" k +:+ join_with "/" comps), w).
Proof.
  unfold resolve_relative_path.
  destruct (os_path_abspath_absolute
              (posixpath.join (posixpath.dirname __file__) path) w)
    as (q & Abs & ->).
  destruct (normpath_absolute q Abs) as (k & comps & K & F & ->).
  now exists k, comps.
Qed.

(** X25. For an absolute argument neither the location of the module nor
    the working directory matters: [resolve_relative_path] returns the
    normal form of the argument. *)
Theorem resolve_relative_path_absolute (__file__ path : string) (w : World) :
  posixpath.isabs path = true ->
  resolve_relative_path __file__ path w = (Ret (posixpath.normpath path), w).
Proof.
  intros Abs. unfold resolve_relative_path, posixpath.join.
  change (startswith path (String posixpath.sep "")) with (posixpath.isabs path).
  rewrite Abs. unfold os_path_abspath. now rewrite Abs.
Qed.

Lemma resolve_relative_path_absolute_witness :
  resolve_relative_path "/opt/facefusion/filesystem.py" "/srv//models/../a.onnx"
    Sample.world =
  (Ret "/srv/a.onnx", Sample.world).
Proof.
  apply (resolve_relative_path_absolute
           "/opt/facefusion/filesystem.py" "/srv//models/../a.onnx" Sample.world).
  reflexivity.
Defined.
